(** * Token fetcher: a lazily refreshing token cache in front of an adapter

    A shallow embedding of [token/fetcher.go]: the [Token] record, the
    [Fetcher] with its [refreshRequired] / [refresh] / [Fetch] methods, the
    functional options of [New], and the Secrets Manager adapter.

    Go's pointer receiver [*Fetcher] is explicit state passing; the two
    interfaces the fetcher holds ([clock.Clock] and [Adapter]) are type
    classes over the state of the implementation behind them; a run also
    yields the list of interface calls it made, in order. *)

From Stdlib Require Import ZArith List String Ascii Bool Lia.
Import ListNotations.

Local Open Scope string_scope.
Local Open Scope list_scope.
Local Open Scope Z_scope.

(* ===================================================================== *)
(** * Go's [time] package, as far as the fetcher uses it *)
(* ===================================================================== *)

(** A [time.Time] is modelled by the instant it denotes, counted in
    nanoseconds from the zero Time (January 1, year 1, 00:00:00 UTC), and a
    [time.Duration] by its count of nanoseconds.  Location and monotonic
    reading play no part in [IsZero], [Before] and [Add] against a wall-only
    time, and the saturation of [Add] at the ends of the representable range
    is left out. *)
Module time.

Definition Duration : Type := Z.

Definition Nanosecond : Duration := 1.
Definition Microsecond : Duration := 1000 * Nanosecond.
Definition Millisecond : Duration := 1000 * Microsecond.
Definition Second : Duration := 1000 * Millisecond.
Definition Minute : Duration := 60 * Second.

Record Time : Type := mkTime { instant : Z }.

(** [time.Time{}] *)
Definition zero : Time := mkTime 0.

Definition IsZero (t : Time) : bool := instant t =? 0.
Definition Before (t u : Time) : bool := instant t <? instant u.
Definition Add (t : Time) (d : Duration) : Time := mkTime (instant t + d).

(** Days from 0001-01-01 to the given proleptic Gregorian date. *)
Definition daysBefore (year month day : Z) : Z :=
  let y := if month <=? 2 then year - 1 else year in
  let era := y / 400 in
  let yoe := y - era * 400 in
  let mp := (month + 9) mod 12 in
  let doy := (153 * mp + 2) / 5 + day - 1 in
  let doe := yoe * 365 + yoe / 4 - yoe / 100 + doy in
  era * 146097 + doe - 306.

(** [time.Date(year, month, day, hour, min, sec, nsec, time.UTC)] *)
Definition Date (year month day hour min sec nsec : Z) : Time :=
  mkTime ((((daysBefore year month day * 24 + hour) * 60 + min) * 60 + sec)
          * Second + nsec).

End time.

(* ===================================================================== *)
(** * Go's [error] values *)
(* ===================================================================== *)

(** [errors.New(s)] and the wrapping error that [fmt.Errorf] builds for a
    format ending in [%w]: its message is the formatted text, and [Unwrap]
    gives back the operand. *)
Inductive error : Type :=
| errorString (s : string)
| wrapError (msg : string) (err : error).

Definition Error (e : error) : string :=
  match e with
  | errorString s => s
  | wrapError msg _ => msg
  end.

Definition Unwrap (e : error) : option error :=
  match e with
  | errorString _ => None
  | wrapError _ err => Some err
  end.

(** [fmt.Errorf(prefix + "%w", err)] *)
Definition Errorf_w (prefix : string) (err : error) : error :=
  wrapError (prefix ++ Error err)%string err.

(* ===================================================================== *)
(** * Data model *)
(* ===================================================================== *)

Record Token : Type := mkToken {
  AccessToken : string;
  TokenType : string;
  RefreshToken : string;
  Expiry : time.Time;
  CreatedAt : time.Time
}.

(** [Token{}] *)
Definition zeroToken : Token :=
  mkToken EmptyString EmptyString EmptyString time.zero time.zero.

Record config : Type := mkConfig {
  tokenExpiryBuffer : time.Duration
}.

Definition defaultConfig : config :=
  {| tokenExpiryBuffer := time.Minute |}.

(** What a callee can see of a [context.Context]. *)
Record Context : Type := mkContext {
  Deadline : option time.Time;
  Done : bool
}.

(** [context.Background()] *)
Definition Background : Context := {| Deadline := None; Done := false |}.

(** A Go call either returns or panics. *)
Inductive Res (X : Type) : Type :=
| Returns (x : X)
| Panics (msg : string).
Arguments Returns {X} x.
Arguments Panics {X} msg.

(** The interface calls a run makes. *)
Inductive Event : Type :=
| ClockNow
| AdapterFetch (ctx : Context).

(** [clock.Clock]: [Now()] reads the clock, which may move on. *)
Class Clock (C : Type) : Type :=
  Now : C -> time.Time * C.

(** [Adapter]: [Fetch(ctx)] yields a Token and an error (nil is [None]). *)
Class Adapter (A : Type) : Type :=
  Adapter_Fetch : Context -> A -> Res (Token * option error) * A.

Record Fetcher (C A : Type) : Type := mkFetcher {
  config' : config;
  clock : C;
  adapter : A;
  token : Token
}.
Arguments mkFetcher {C A} _ _ _ _.
Arguments config' {C A} _.
Arguments clock {C A} _.
Arguments adapter {C A} _.
Arguments token {C A} _.

(* ===================================================================== *)
(** * The fetcher's methods *)
(* ===================================================================== *)

Section FetcherMethods.

Context {C A : Type} {clk : Clock C} {adp : Adapter A}.

(** A method on [*Fetcher]: from the fetcher before the call to the
    outcome, the fetcher after it, and the interface calls made. *)
Definition M (X : Type) : Type :=
  Fetcher C A -> Res X * Fetcher C A * list Event.

Definition ret {X} (x : X) : M X := fun f => (Returns x, f, []).

Definition bind {X Y} (m : M X) (k : X -> M Y) : M Y :=
  fun f =>
    match m f with
    | (Returns x, f1, l1) =>
        match k x f1 with
        | (r, f2, l2) => (r, f2, l1 ++ l2)
        end
    | (Panics msg, f1, l1) => (Panics msg, f1, l1)
    end.

Definition get : M (Fetcher C A) := fun f => (Returns f, f, []).

(** [f.clock.Now()] *)
Definition clock_Now : M time.Time :=
  fun f =>
    let '(t, c) := Now (clock f) in
    (Returns t, mkFetcher (config' f) c (adapter f) (token f), [ClockNow]).

(** [f.adapter.Fetch(ctx)] *)
Definition adapter_Fetch (ctx : Context) : M (Token * option error) :=
  fun f =>
    let '(r, a) := Adapter_Fetch ctx (adapter f) in
    (r, mkFetcher (config' f) (clock f) a (token f), [AdapterFetch ctx]).

(** [f.token = t] *)
Definition set_token (t : Token) : M unit :=
  fun f => (Returns tt, mkFetcher (config' f) (clock f) (adapter f) t, []).

Notation "x <- m ;; k" := (bind m (fun x => k))
  (at level 61, m at next level, right associativity).

(** [||] and [&&] evaluate left to right and stop early, so the clock is
    read only for a token that has an access token and an expiry. *)
Definition Fetcher_refreshRequired : M bool :=
  f <- get ;;
  if String.eqb (AccessToken (token f)) EmptyString then ret true
  else if negb (time.IsZero (Expiry (token f))) then
    now <- clock_Now ;;
    ret (time.Before (Expiry (token f))
                     (time.Add now (tokenExpiryBuffer (config' f))))
  else ret false.

Definition Fetcher_refresh (ctx : Context) : M (Token * option error) :=
  r <- adapter_Fetch ctx ;;
  match snd r with
  | Some err => ret (zeroToken, Some err)
  | None =>
      _ <- set_token (fst r) ;;
      ret (fst r, None)
  end.

Definition Fetcher_Fetch (ctx : Context) : M (Token * option error) :=
  b <- Fetcher_refreshRequired ;;
  if b then Fetcher_refresh ctx
  else
    f <- get ;;
    ret (token f, None).

(** Projections of a run. *)
Definition outcome {X} (r : Res X * Fetcher C A * list Event) : Res X :=
  fst (fst r).
Definition after {X} (r : Res X * Fetcher C A * list Event) : Fetcher C A :=
  snd (fst r).
Definition calls {X} (r : Res X * Fetcher C A * list Event) : list Event :=
  snd r.

(** What the clock of [f] reads when it is asked next. *)
Definition reading (f : Fetcher C A) : time.Time := fst (Now (clock f)).

(** The fetcher after its clock was read once. *)
Definition ticked (f : Fetcher C A) : Fetcher C A :=
  mkFetcher (config' f) (snd (Now (clock f))) (adapter f) (token f).

(** The adapter's answer to a call made from [f]. *)
Definition answerTo (f : Fetcher C A) (ctx : Context)
    : Res (Token * option error) :=
  fst (Adapter_Fetch ctx (adapter f)).

(** The fetcher after that call, with [t] in the cache. *)
Definition refreshed (f : Fetcher C A) (ctx : Context) (t : Token)
    : Fetcher C A :=
  mkFetcher (config' f) (clock f) (snd (Adapter_Fetch ctx (adapter f))) t.

End FetcherMethods.


(* ===================================================================== *)
(** * Construction *)
(* ===================================================================== *)

(** The two clocks of the clock package.  A fixed clock always reads the
    same instant; the system clock reads the host's wall clock, here the
    sequence [wall] of its successive readings. *)
Record FixedClock : Type := NewFixed { fixed : time.Time }.

Record SystemClock : Type := mkSystem {
  wall : nat -> time.Time;
  reads : nat
}.

Definition NewSystem (wall : nat -> time.Time) : SystemClock :=
  {| wall := wall; reads := 0%nat |}.

#[export] Instance FixedClock_Clock : Clock FixedClock :=
  fun c => (fixed c, c).

#[export] Instance SystemClock_Clock : Clock SystemClock :=
  fun c => (wall c (reads c), {| wall := wall c; reads := S (reads c) |}).

(** An [Option] is a function that updates a [config] in place: here the
    config after the call, from the one before. *)
Definition Option : Type := config -> config.


(** [for _, opt := range opts { opt(&c) }] *)
Definition applyOptions (opts : list Option) (c : config) : config :=
  fold_left (fun c opt => opt c) opts c.

(** [New(adapter, opts...)], on a host whose wall clock reads [host]. *)
Definition New {A : Type} (host : nat -> time.Time) (adapter : A)
    (opts : list Option) : Fetcher SystemClock A :=
  let c := applyOptions opts defaultConfig in
  {| config' := c;
     clock := NewSystem host;
     adapter := adapter;
     token := zeroToken |}.

(* ===================================================================== *)
(** * The mock adapter of the tests *)
(* ===================================================================== *)

(** [m.On("Fetch", mock.Anything).Return(tok, err).Once()], once per entry
    of [script]; a call beyond the script panics.  [received] records the
    contexts of the calls. *)
Record mockAdapter : Type := mkMock {
  script : list (Token * option error);
  received : list Context
}.

#[export] Instance mockAdapter_Adapter : Adapter mockAdapter :=
  fun ctx m =>
    match script m with
    | [] => (Panics "mock: I don't know what to return", m)
    | r :: rest =>
        (Returns r, {| script := rest; received := received m ++ [ctx] |})
    end.

(** An adapter that answers every call the same way. *)
Record constAdapter : Type := mkConst { answer : Token * option error }.

#[export] Instance constAdapter_Adapter : Adapter constAdapter :=
  fun ctx a => (Returns (answer a), a).

(** The adapter calls among the interface calls of a run. *)
Definition adapterCalls (l : list Event) : list Context :=
  flat_map (fun e => match e with
                     | AdapterFetch ctx => [ctx]
                     | ClockNow => []
                     end) l.

(* ===================================================================== *)
(** * The secret payload *)
(* ===================================================================== *)

(** A JSON document as a value.  An object keeps its members in the order
    and with the repetitions of the text. *)
#[local] Set Warnings "-register-all".
Inductive Value : Type :=
| JNull
| JBool (b : bool)
| JNumber (literal : string)
| JString (s : string)
| JArray (elements : list Value)
| JObject (members : list (string * Value)).

(** The text forms that lie outside this repository: the syntax of JSON
    documents, and the text of a timestamp ([formatTime] yields [None] where
    the time has no text form). *)
Class Syntax : Type := {
  json_parse : string -> Value + error;
  formatTime : time.Time -> option string;
  parseTime : string -> option time.Time
}.

(** The keys of the struct tags of [Token]. *)
Inductive Field : Type :=
| fAccessToken
| fTokenType
| fRefreshToken
| fExpiry
| fCreatedAt.

Definition tag (f : Field) : string :=
  match f with
  | fAccessToken => "access_token"
  | fTokenType => "token_type"
  | fRefreshToken => "refresh_token"
  | fExpiry => "expiry"
  | fCreatedAt => "created_at"
  end.

Definition fieldOf (key : string) : option Field :=
  find (fun f => String.eqb key (tag f))
       [fAccessToken; fTokenType; fRefreshToken; fExpiry; fCreatedAt].

Definition kind (v : Value) : string :=
  match v with
  | JNull => "null"
  | JBool _ => "bool"
  | JNumber _ => "number"
  | JString _ => "string"
  | JArray _ => "array"
  | JObject _ => "object"
  end.

Definition UnmarshalTypeError (v : Value) (target : string) : error :=
  errorString ("json: cannot unmarshal " ++ kind v ++ " into " ++ target)%string.

Definition setText (f : Field) (s : string) (t : Token) : Token :=
  match f with
  | fAccessToken =>
      mkToken s (TokenType t) (RefreshToken t) (Expiry t) (CreatedAt t)
  | fTokenType =>
      mkToken (AccessToken t) s (RefreshToken t) (Expiry t) (CreatedAt t)
  | fRefreshToken =>
      mkToken (AccessToken t) (TokenType t) s (Expiry t) (CreatedAt t)
  | fExpiry | fCreatedAt => t
  end.

Definition setTime (f : Field) (x : time.Time) (t : Token) : Token :=
  match f with
  | fExpiry =>
      mkToken (AccessToken t) (TokenType t) (RefreshToken t) x (CreatedAt t)
  | fCreatedAt =>
      mkToken (AccessToken t) (TokenType t) (RefreshToken t) (Expiry t) x
  | fAccessToken | fTokenType | fRefreshToken => t
  end.

Definition isTime (f : Field) : bool :=
  match f with
  | fExpiry | fCreatedAt => true
  | fAccessToken | fTokenType | fRefreshToken => false
  end.

Definition orElse (saved : option error) (e : error) : option error :=
  match saved with
  | Some e0 => Some e0
  | None => Some e
  end.

Section Payload.

Context {syn : Syntax}.

(** Modelled from the spec: the decoding of one member of the payload into
    the field of that name, which the source leaves to [json.Unmarshal].
    A key that names no field is skipped and [null] leaves the field as it
    is.  A text field given another kind of value records a type error and
    decoding goes on; a timestamp that does not parse stops the decoding
    there ([inr]) with the field zeroed. *)
Definition decodeMember (m : string * Value) (t : Token)
    (saved : option error) : (Token * option error) + (Token * error) :=
  let '(key, v) := m in
  match fieldOf key with
  | None => inl (t, saved)
  | Some f =>
      match v with
      | JNull => inl (t, saved)
      | JString s =>
          if isTime f then
            match parseTime s with
            | Some x => inl (setTime f x t, saved)
            | None =>
                inr (setTime f time.zero t,
                     errorString ("parsing time " ++ s ++ " as RFC 3339")%string)
            end
          else inl (setText f s t, saved)
      | _ =>
          if isTime f then
            inr (t, errorString
                      "Time.UnmarshalJSON: input is not a JSON string")
          else
            inl (t, orElse saved
                      (UnmarshalTypeError v
                         ("Go struct field Token." ++ key
                          ++ " of type string")%string))
      end
  end.

Fixpoint decodeMembers (ms : list (string * Value)) (t : Token)
    (saved : option error) : Token * option error :=
  match ms with
  | [] => (t, saved)
  | m :: rest =>
      match decodeMember m t saved with
      | inl (t', saved') => decodeMembers rest t' saved'
      | inr (t', e) => (t', Some e)
      end
  end.

(** Modelled from the spec: [json.Unmarshal] of a document into a [*Token];
    the token it returns is the target after the call, which a failed
    decoding may have filled in part. *)
Definition UnmarshalToken (v : Value) (t : Token) : Token * option error :=
  match v with
  | JNull => (t, None)
  | JObject ms => decodeMembers ms t None
  | _ => (t, Some (UnmarshalTypeError v "Go value of type token.Token"))
  end.

(** [json.Unmarshal([]byte(data), &t)]: text that is no JSON document is
    refused before the target is touched. *)
Definition json_Unmarshal (data : string) (t : Token)
    : Token * option error :=
  match json_parse data with
  | inr e => (t, Some e)
  | inl v => UnmarshalToken v t
  end.

Definition textMember (omitempty : bool) (f : Field) (s : string)
    : list (string * Value) :=
  if omitempty && String.eqb s EmptyString then []
  else [(tag f, JString s)].

Definition timeMember (omitzero : bool) (f : Field) (x : time.Time)
    : option (list (string * Value)) :=
  if omitzero && time.IsZero x then Some []
  else
    match formatTime x with
    | Some s => Some [(tag f, JString s)]
    | None => None
    end.

(** Modelled from the spec: the encoding of a Token to the secret payload,
    done by the writer of the secret, which is not part of this repository.
    The members follow the struct tags of [Token]: [access_token] is always
    written, [token_type] and [refresh_token] are left out when empty, and
    [omitzero] says whether a zero timestamp is left out too (the optional
    timestamp of the payload format) or written like any other (what the
    [omitempty] of the tags amounts to on a struct).  There is no payload
    ([None]) for a timestamp without a text form. *)
Definition MarshalToken (omitzero : bool) (t : Token) : option Value :=
  match timeMember omitzero fExpiry (Expiry t),
        timeMember omitzero fCreatedAt (CreatedAt t) with
  | Some e, Some c =>
      Some (JObject (textMember false fAccessToken (AccessToken t)
                     ++ textMember true fTokenType (TokenType t)
                     ++ textMember true fRefreshToken (RefreshToken t)
                     ++ e ++ c))
  | _, _ => None
  end.

(** A timestamp survives its text form. *)
Definition survives (x : time.Time) : Prop :=
  forall s, formatTime x = Some s -> parseTime s = Some x.

End Payload.

(* ===================================================================== *)
(** * The Secrets Manager adapter *)
(* ===================================================================== *)

(** The request and the response of [GetSecretValue], as far as the
    adapter touches them; a pointer field is an [option]. *)
Record GetSecretValueInput : Type := mkInput {
  SecretId : option string
}.

Record GetSecretValueOutput : Type := mkOutput {
  SecretBinary : option string;
  SecretString : option string
}.

(** [awsSecretsManagerClient]: the store answers with a response pointer
    and an error. *)
Class awsSecretsManagerClient (K : Type) : Type :=
  GetSecretValue :
    Context -> GetSecretValueInput -> K ->
    (option GetSecretValueOutput * option error) * K.

Record awsSecretsManagerAdapter (K : Type) : Type := mkAdapter {
  client : K;
  key : string
}.
Arguments mkAdapter {K} _ _.
Arguments client {K} _.
Arguments key {K} _.

Definition nilDereference : string :=
  "runtime error: invalid memory address or nil pointer dereference".

Section SecretsManager.

Context {K : Type} {sm : awsSecretsManagerClient K} {syn : Syntax}.

Definition awsSecretsManagerAdapter_Fetch (ctx : Context)
    (a : awsSecretsManagerAdapter K)
    : Res (Token * option error) * awsSecretsManagerAdapter K :=
  let '((out, err), k) :=
    GetSecretValue ctx {| SecretId := Some (key a) |} (client a) in
  let a' := {| client := k; key := key a |} in
  match err with
  | Some e =>
      (Returns (zeroToken,
                Some (Errorf_w
                        "unable to fetch token from secrets manager: " e)),
       a')
  | None =>
      match out with
      | None => (Panics nilDereference, a')
      | Some o =>
          match SecretString o with
          | None => (Panics nilDereference, a')
          | Some data =>
              let '(t, perr) := json_Unmarshal data zeroToken in
              match perr with
              | Some e =>
                  (Returns (zeroToken,
                            Some (Errorf_w
                                    "unable to parse token from secrets manager: "
                                    e)),
                   a')
              | None => (Returns (t, None), a')
              end
          end
      end
  end.

#[export] Instance awsSecretsManagerAdapter_Adapter
  : Adapter (awsSecretsManagerAdapter K) :=
  awsSecretsManagerAdapter_Fetch.

Definition NewAWSSecretsManagerFetcher (host : nat -> time.Time)
    (smClient : K) (smKey : string) (opts : list Option)
    : Fetcher SystemClock (awsSecretsManagerAdapter K) :=
  New host {| client := smClient; key := smKey |} opts.

(** What the store answers to the request the adapter makes. *)
Definition storeAnswer (a : awsSecretsManagerAdapter K) (ctx : Context)
    : option GetSecretValueOutput * option error :=
  fst (GetSecretValue ctx {| SecretId := Some (key a) |} (client a)).

(** The store call failed with [e]. *)
Definition storeFails (a : awsSecretsManagerAdapter K) (ctx : Context)
    (e : error) : Prop :=
  snd (storeAnswer a ctx) = Some e.

(** The store call succeeded with the text [data], and decoding it into a
    zero Token failed with [e]. *)
Definition parseFails (a : awsSecretsManagerAdapter K) (ctx : Context)
    (e : error) : Prop :=
  exists o data t,
    storeAnswer a ctx = (Some o, None)
    /\ SecretString o = Some data
    /\ json_Unmarshal data zeroToken = (t, Some e).

End SecretsManager.

(** The mock client of the tests: scripted answers, and the requests it
    received. *)
Record mockAWSSecretsManagerClient : Type := mkMockClient {
  answers : list (option GetSecretValueOutput * option error);
  requests : list (Context * GetSecretValueInput)
}.

#[export] Instance mockAWSSecretsManagerClient_Client
  : awsSecretsManagerClient mockAWSSecretsManagerClient :=
  fun ctx params m =>
    match answers m with
    | [] => ((None, Some (errorString "mock: unexpected call")), m)
    | r :: rest =>
        (r, {| answers := rest; requests := requests m ++ [(ctx, params)] |})
    end.


(* ===================================================================== *)
(** * The text of a payload *)
(* ===================================================================== *)

(** Modelled from the spec: the "standard interchange text format" of the
    secret payload, JSON, and that of its timestamps, RFC 3339.  Both are
    read by Go's library, not by code of this repository; the definitions
    below give one [Syntax] to run the adapter on the payloads of the tests.
    String bytes are taken as they are. *)

Definition code (c : ascii) : Z := Z.of_N (N_of_ascii c).
Definition chr (n : Z) : ascii := ascii_of_N (Z.to_N n).

Definition obind {X Y : Type} (o : option X) (k : X -> option Y)
    : option Y :=
  match o with
  | Some x => k x
  | None => None
  end.

Notation "'do' x <- o ; k" := (obind o (fun x => k))
  (at level 10, x pattern, o at level 100, k at level 200).

Definition isSpace (c : ascii) : bool :=
  (code c =? 32) || (code c =? 9) || (code c =? 10) || (code c =? 13).

Definition isDigit (c : ascii) : bool :=
  (48 <=? code c) && (code c <=? 57).

Fixpoint skipSpace (s : string) : string :=
  match s with
  | String c r => if isSpace c then skipSpace r else s
  | EmptyString => s
  end.

(** [s] without its prefix [lit]. *)
Fixpoint expect (lit s : string) : option string :=
  match lit, s with
  | EmptyString, _ => Some s
  | String a lit', String b s' =>
      if Ascii.eqb a b then expect lit' s' else None
  | String _ _, EmptyString => None
  end.

(** [s] without its first character, which has code [k]. *)
Definition char (k : Z) (s : string) : option string :=
  match s with
  | String c r => if code c =? k then Some r else None
  | EmptyString => None
  end.

Fixpoint takeDigits (s : string) : string * string :=
  match s with
  | String c r =>
      if isDigit c then
        let (d, rest) := takeDigits r in (String c d, rest)
      else (EmptyString, s)
  | EmptyString => (EmptyString, s)
  end.

Definition hexVal (c : ascii) : option Z :=
  let n := code c in
  if (48 <=? n) && (n <=? 57) then Some (n - 48)
  else if (97 <=? n) && (n <=? 102) then Some (n - 87)
  else if (65 <=? n) && (n <=? 70) then Some (n - 55)
  else None.

Definition hex4 (a b c d : ascii) : option Z :=
  do w <- hexVal a; do x <- hexVal b; do y <- hexVal c; do z <- hexVal d;
  Some (((w * 16 + x) * 16 + y) * 16 + z).

Definition utf8 (cp : Z) : string :=
  if cp <? 128 then String (chr cp) EmptyString
  else if cp <? 2048 then
    String (chr (192 + cp / 64)) (String (chr (128 + cp mod 64)) EmptyString)
  else if cp <? 65536 then
    String (chr (224 + cp / 4096))
      (String (chr (128 + cp / 64 mod 64))
         (String (chr (128 + cp mod 64)) EmptyString))
  else
    String (chr (240 + cp / 262144))
      (String (chr (128 + cp / 4096 mod 64))
         (String (chr (128 + cp / 64 mod 64))
            (String (chr (128 + cp mod 64)) EmptyString))).

(** The character a one-letter escape stands for. *)
Definition unescape (c : ascii) : option ascii :=
  let n := code c in
  if (n =? 34) || (n =? 92) || (n =? 47) then Some c
  else if n =? 98 then Some (chr 8)
  else if n =? 102 then Some (chr 12)
  else if n =? 110 then Some (chr 10)
  else if n =? 114 then Some (chr 13)
  else if n =? 116 then Some (chr 9)
  else None.

Definition isSurrogate (cp : Z) : bool := (55296 <=? cp) && (cp <? 57344).

(** The body of a string literal, up to its closing quote, and the text
    after it.  A lone surrogate escape reads as U+FFFD. *)
Fixpoint scanString (s : string) : option (string * string) :=
  match s with
  | EmptyString => None
  | String c r =>
      if code c =? 34 then Some (EmptyString, r)
      else if code c <? 32 then None
      else if code c =? 92 then
        match r with
        | String e r1 =>
            if code e =? 117 then
              match r1 with
              | String h1 (String h2 (String h3 (String h4 r2))) =>
                  do cp <- hex4 h1 h2 h3 h4;
                  if isSurrogate cp then
                    match r2 with
                    | String b (String u (String l1 (String l2
                        (String l3 (String l4 r3))))) =>
                        match hex4 l1 l2 l3 l4 with
                        | Some lo =>
                            if (code b =? 92) && (code u =? 117)
                               && (cp <? 56320) && (56320 <=? lo)
                               && (lo <? 57344)
                            then
                              do (str, rest) <- scanString r3;
                              Some (utf8 (65536 + (cp - 55296) * 1024
                                          + (lo - 56320)) ++ str, rest)%string
                            else
                              do (str, rest) <- scanString r2;
                              Some (utf8 65533 ++ str, rest)%string
                        | None =>
                            do (str, rest) <- scanString r2;
                            Some (utf8 65533 ++ str, rest)%string
                        end
                    | _ =>
                        do (str, rest) <- scanString r2;
                        Some (utf8 65533 ++ str, rest)%string
                    end
                  else
                    do (str, rest) <- scanString r2;
                    Some (utf8 cp ++ str, rest)%string
              | _ => None
              end
            else
              do x <- unescape e;
              do (str, rest) <- scanString r1;
              Some (String x str, rest)
        | EmptyString => None
        end
      else
        do (str, rest) <- scanString r;
        Some (String c str, rest)
  end.

(** A number literal and the text after it. *)
Definition scanNumber (s : string) : option (string * string) :=
  let '(sign, s1) :=
    match char 45 s with
    | Some r => ("-", r)
    | None => ("", s)
    end in
  let '(int, s2) := takeDigits s1 in
  match int with
  | EmptyString => None
  | String d ds =>
      if (code d =? 48) && negb (String.eqb ds EmptyString) then None
      else
        do (frac, s3) <-
          match char 46 s2 with
          | Some r =>
              let '(f, r') := takeDigits r in
              if String.eqb f EmptyString then None
              else Some (("." ++ f)%string, r')
          | None => Some (EmptyString, s2)
          end;
        do (exp, s4) <-
          match s3 with
          | String e r =>
              if (code e =? 101) || (code e =? 69) then
                let '(sg, r1) :=
                  match r with
                  | String g r' =>
                      if (code g =? 43) || (code g =? 45)
                      then (String g EmptyString, r')
                      else (EmptyString, r)
                  | EmptyString => (EmptyString, r)
                  end in
                let '(x, r2) := takeDigits r1 in
                if String.eqb x EmptyString then None
                else Some ((String e sg ++ x)%string, r2)
              else Some (EmptyString, s3)
          | EmptyString => Some (EmptyString, s3)
          end;
        Some ((sign ++ int ++ frac ++ exp)%string, s4)
  end.

Fixpoint parseValue (fuel : nat) (s : string) : option (Value * string) :=
  match fuel with
  | O => None
  | S n =>
      match skipSpace s with
      | EmptyString => None
      | String c r =>
          let k := code c in
          if k =? 110 then do rest <- expect "ull" r; Some (JNull, rest)
          else if k =? 116 then
            do rest <- expect "rue" r; Some (JBool true, rest)
          else if k =? 102 then
            do rest <- expect "alse" r; Some (JBool false, rest)
          else if k =? 34 then
            do (str, rest) <- scanString r; Some (JString str, rest)
          else if k =? 91 then
            match char 93 (skipSpace r) with
            | Some rest => Some (JArray [], rest)
            | None =>
                do (vs, rest) <- parseElements n r; Some (JArray vs, rest)
            end
          else if k =? 123 then
            match char 125 (skipSpace r) with
            | Some rest => Some (JObject [], rest)
            | None =>
                do (ms, rest) <- parseMembers n r; Some (JObject ms, rest)
            end
          else
            do (lit, rest) <- scanNumber (String c r);
            Some (JNumber lit, rest)
      end
  end
with parseElements (fuel : nat) (s : string)
    : option (list Value * string) :=
  match fuel with
  | O => None
  | S n =>
      do (v, rest) <- parseValue n s;
      match skipSpace rest with
      | String c r =>
          if code c =? 44 then
            do (vs, rest') <- parseElements n r; Some (v :: vs, rest')
          else if code c =? 93 then Some ([v], r)
          else None
      | EmptyString => None
      end
  end
with parseMembers (fuel : nat) (s : string)
    : option (list (string * Value) * string) :=
  match fuel with
  | O => None
  | S n =>
      do r0 <- char 34 (skipSpace s);
      do (key, r1) <- scanString r0;
      do r2 <- char 58 (skipSpace r1);
      do (v, rest) <- parseValue n r2;
      match skipSpace rest with
      | String c r =>
          if code c =? 44 then
            do (ms, rest') <- parseMembers n r; Some ((key, v) :: ms, rest')
          else if code c =? 125 then Some ([(key, v)], r)
          else None
      | EmptyString => None
      end
  end.

Definition SyntaxError : error :=
  errorString "json: invalid character or unexpected end of JSON input".

(** Modelled from the spec: the reading of a JSON text, done by Go's
    [encoding/json]: the document the text holds, or a syntax error. *)
Definition parseJSON (s : string) : Value + error :=
  match parseValue (2 * String.length s + 2) s with
  | Some (v, rest) =>
      match skipSpace rest with
      | EmptyString => inl v
      | String _ _ => inr SyntaxError
      end
  | None => inr SyntaxError
  end.

(** Year, month and day of the date [days] days after 0001-01-01. *)
Definition civil (days : Z) : Z * Z * Z :=
  let z := days + 306 in
  let era := z / 146097 in
  let doe := z - era * 146097 in
  let yoe := (doe - doe / 1460 + doe / 36524 - doe / 146096) / 365 in
  let doy := doe - (365 * yoe + yoe / 4 - yoe / 100) in
  let mp := (5 * doy + 2) / 153 in
  let d := doy - (153 * mp + 2) / 5 + 1 in
  let m := if mp <? 10 then mp + 3 else mp - 9 in
  (yoe + era * 400 + (if m <=? 2 then 1 else 0), m, d).

(** The year a time falls in. *)
Definition year (x : time.Time) : Z :=
  fst (fst (civil (time.instant x / time.Second / 86400))).

Definition isLeap (y : Z) : bool :=
  (y mod 4 =? 0) && (negb (y mod 100 =? 0) || (y mod 400 =? 0)).

Definition daysIn (y m : Z) : Z :=
  if m =? 2 then (if isLeap y then 29 else 28)
  else if (m =? 4) || (m =? 6) || (m =? 9) || (m =? 11) then 30
  else 31.

Definition digit (n : Z) : ascii := chr (48 + n).

Definition pad2 (n : Z) : string :=
  String (digit (n / 10)) (String (digit (n mod 10)) EmptyString).

Definition pad4 (n : Z) : string := (pad2 (n / 100) ++ pad2 (n mod 100))%string.

(** The digits of [n] out of [width], without the zeros at the end. *)
Fixpoint fraction (width : nat) (n : Z) : string :=
  match width with
  | O => EmptyString
  | S w =>
      if n =? 0 then EmptyString
      else String (digit (n / 10 ^ Z.of_nat w))
                  (fraction w (n mod 10 ^ Z.of_nat w))
  end.

(** The value of the first [width] digits of [ds], read as [width] digits. *)
Fixpoint scaled (width : nat) (ds : string) : Z :=
  match width, ds with
  | S w, String c r => (code c - 48) * 10 ^ Z.of_nat w + scaled w r
  | _, _ => 0
  end.

(** Modelled from the spec: the RFC 3339 text of a time, written by Go's
    [time] package: in UTC and with nanoseconds; none for a year outside
    0..9999. *)
Definition formatRFC3339 (t : time.Time) : option string :=
  let secs := time.instant t / time.Second in
  let nsec := time.instant t mod time.Second in
  let sod := secs mod 86400 in
  let '(y, m, d) := civil (secs / 86400) in
  if (0 <=? y) && (y <=? 9999) then
    Some (pad4 y ++ "-" ++ pad2 m ++ "-" ++ pad2 d ++ "T"
          ++ pad2 (sod / 3600) ++ ":" ++ pad2 (sod mod 3600 / 60) ++ ":"
          ++ pad2 (sod mod 60)
          ++ (if (nsec =? 0)%Z then "" else "." ++ fraction 9 nsec)
          ++ "Z")%string
  else None.

Definition num2 (s : string) : option (Z * string) :=
  match s with
  | String a (String b r) =>
      if isDigit a && isDigit b
      then Some (10 * (code a - 48) + (code b - 48), r)
      else None
  | _ => None
  end.

Definition num4 (s : string) : option (Z * string) :=
  do (hi, r) <- num2 s;
  do (lo, r') <- num2 r;
  Some (100 * hi + lo, r').

(** The offset of a zone, in seconds: [Z], or hours and minutes with a
    sign. *)
Definition zone (s : string) : option (Z * string) :=
  match s with
  | String c r =>
      if code c =? 90 then Some (0, r)
      else if (code c =? 43) || (code c =? 45) then
        do (hh, r1) <- num2 r;
        do r2 <- char 58 r1;
        do (mm, r3) <- num2 r2;
        if (hh <? 24) && (mm <? 60) then
          Some ((if code c =? 43 then 1 else -1) * (hh * 3600 + mm * 60), r3)
        else None
      else None
  | EmptyString => None
  end.

(** Modelled from the spec: the reading of an RFC 3339 text, done by Go's
    [time] package: the time the text denotes. *)
Definition parseRFC3339 (s : string) : option time.Time :=
  do (y, s) <- num4 s;
  do s <- char 45 s;
  do (m, s) <- num2 s;
  do s <- char 45 s;
  do (d, s) <- num2 s;
  do s <- char 84 s;
  do (h, s) <- num2 s;
  do s <- char 58 s;
  do (mi, s) <- num2 s;
  do s <- char 58 s;
  do (sec, s) <- num2 s;
  do (nsec, s) <-
    match char 46 s with
    | Some r =>
        let '(ds, rest) := takeDigits r in
        if String.eqb ds EmptyString then None else Some (scaled 9 ds, rest)
    | None => Some (0, s)
    end;
  do (offset, s) <- zone s;
  if String.eqb s EmptyString
     && (1 <=? m) && (m <=? 12) && (1 <=? d) && (d <=? daysIn y m)
     && (h <? 24) && (mi <? 60) && (sec <? 60)
  then Some (time.Add (time.Date y m d h mi sec nsec)
                      (- offset * time.Second))
  else None.

(** The syntax of JSON texts with RFC 3339 timestamps. *)
Definition textSyntax : Syntax :=
  {| json_parse := parseJSON;
     formatTime := formatRFC3339;
     parseTime := parseRFC3339 |}.

(* ===================================================================== *)
(** * The fixtures of the tests *)
(* ===================================================================== *)

Definition now : time.Time := time.Date 2030 1 2 0 0 0 0.
Definition past : time.Time := time.Date 2030 1 1 0 0 0 0.
Definition future : time.Time := time.Date 2030 1 2 1 0 0 0.

Definition tok : Token :=
  mkToken "token-123" EmptyString EmptyString time.zero time.zero.

Definition fullToken : Token :=
  mkToken "token-123" "bearer" "refresh-123"
    (time.Date 2030 1 2 0 0 0 0) (time.Date 2025 1 2 0 0 0 0).

(** [&Fetcher{config: c, clock: clock.NewFixed(now), adapter: mAdapter,
    token: t}], the mock adapter scripted with [script]. *)
Definition testFetcher (c : config) (script : list (Token * option error))
    (t : Token) : Fetcher FixedClock mockAdapter :=
  {| config' := c;
     clock := NewFixed now;
     adapter := {| script := script; received := [] |};
     token := t |}.

(** A context with a deadline, to tell it from [Background]. *)
Definition withDeadline : Context :=
  {| Deadline := Some future; Done := false |}.

Definition quoted (s : string) : string :=
  (String (chr 34) s ++ String (chr 34) EmptyString)%string.

(** The valid secret of the adapter's test. *)
Definition validSecret : string :=
  ("{" ++ quoted "access_token" ++ ":" ++ quoted "token-123" ++ ","
   ++ quoted "token_type" ++ ":" ++ quoted "bearer" ++ ","
   ++ quoted "refresh_token" ++ ":" ++ quoted "refresh-123" ++ ","
   ++ quoted "expiry" ++ ":" ++ quoted "2030-01-02T00:00:00Z" ++ ","
   ++ quoted "created_at" ++ ":" ++ quoted "2025-01-02T00:00:00Z"
   ++ "}")%string.

Definition invalidSecret : string := "{invalid-json]".

(** The adapter over a mock store with one scripted answer. *)
Definition testAdapter
    (answer : option GetSecretValueOutput * option error)
    : awsSecretsManagerAdapter mockAWSSecretsManagerClient :=
  {| client := {| answers := [answer]; requests := [] |};
     key := "secret-key" |}.

Definition secretString (data : string) : option GetSecretValueOutput :=
  Some {| SecretBinary := None; SecretString := Some data |}.

(** A secret stored as bytes: its response carries no secret string. *)
Definition binarySecret : option GetSecretValueOutput :=
  Some {| SecretBinary := Some "bytes"; SecretString := None |}.

(* ===================================================================== *)
(** * Observing a fetcher over its lifetime *)
(* ===================================================================== *)

(** The number of clock readings among the interface calls of a run. *)
Definition clockReads (l : list Event) : nat :=
  List.length
    (filter (fun e => match e with
                      | ClockNow => true
                      | AdapterFetch _ => false
                      end) l).

Section Lifetime.

Context {C A : Type} {clk : Clock C} {adp : Adapter A}.

(** The states a fetcher goes through from [f0], one [Fetch] after
    another, each with a context of its own. *)
Inductive reachable (f0 : Fetcher C A) : Fetcher C A -> Prop :=
| reachable_start : reachable f0 f0
| reachable_Fetch (f : Fetcher C A) (ctx : Context) :
    reachable f0 f -> reachable f0 (after (Fetcher_Fetch ctx f)).

End Lifetime.

(** The custom adapter of the README: it returns
    [token.Token{AccessToken: "token"}] and a nil error, every time. *)
Inductive custom : Type := mkCustom.

Definition customToken : Token :=
  mkToken "token" EmptyString EmptyString time.zero time.zero.

#[export] Instance custom_Adapter : Adapter custom :=
  fun ctx c => (Returns (customToken, None), c).

(** A host whose wall clock stands still at [now]. *)
Definition stillHost : nat -> time.Time := fun _ => now.

(** A mock store with one scripted answer. *)
Definition testClient
    (answer : option GetSecretValueOutput * option error)
    : mockAWSSecretsManagerClient :=
  {| answers := [answer]; requests := [] |}.
(* ===================================================================== *)
(** * Properties of the time model *)
(* ===================================================================== *)

Lemma Time_eta (t : time.Time) : time.mkTime (time.instant t) = t.
Proof. destruct t; reflexivity. Qed.

Lemma instant_inj (t u : time.Time) :
  time.instant t = time.instant u -> t = u.
Proof. destruct t, u; simpl; intros ->; reflexivity. Qed.

Lemma IsZero_true (t : time.Time) : time.IsZero t = true <-> t = time.zero.
Proof.
  unfold time.IsZero; rewrite Z.eqb_eq; split.
  - intros E; apply instant_inj; exact E.
  - intros ->; reflexivity.
Qed.

Lemma IsZero_false (t : time.Time) :
  time.IsZero t = false <-> t <> time.zero.
Proof.
  rewrite <- IsZero_true; destruct (time.IsZero t); split; congruence.
Qed.


Lemma Add_zero (t : time.Time) : time.Add t 0 = t.
Proof. unfold time.Add; rewrite Z.add_0_r; apply Time_eta. Qed.



Lemma Minute_value : time.Minute = 60000000000.
Proof. reflexivity. Qed.

(* ===================================================================== *)
(** * The refresh-required predicate *)
(* ===================================================================== *)

Section FetcherProperties.

Context {C A : Type} {clk : Clock C} {adp : Adapter A}.

Implicit Types (f g : Fetcher C A) (ctx : Context).

Lemma outcome_run {X} (o : Res X) f (l : list Event) :
  outcome (o, f, l) = o.
Proof. reflexivity. Qed.

Lemma after_run {X} (o : Res X) f (l : list Event) : after (o, f, l) = f.
Proof. reflexivity. Qed.

Lemma calls_run {X} (o : Res X) f (l : list Event) : calls (o, f, l) = l.
Proof. reflexivity. Qed.

Lemma run_eta {X} (r : Res X * Fetcher C A * list Event) :
  r = (outcome r, after r, calls r).
Proof. destruct r as [[o f] l]; reflexivity. Qed.

Lemma adapterCalls_app (l1 l2 : list Event) :
  adapterCalls (l1 ++ l2) = adapterCalls l1 ++ adapterCalls l2.
Proof. apply flat_map_app. Qed.

(** The three ways through [refreshRequired]. *)
Lemma refreshRequired_run f :
  Fetcher_refreshRequired f =
    if String.eqb (AccessToken (token f)) EmptyString
    then (Returns true, f, [])
    else if time.IsZero (Expiry (token f))
    then (Returns false, f, [])
    else (Returns (time.Before (Expiry (token f))
                     (time.Add (reading f) (tokenExpiryBuffer (config' f)))),
          ticked f, [ClockNow]).
Proof.
  unfold Fetcher_refreshRequired, bind, get, ret, clock_Now, reading, ticked.
  destruct (String.eqb (AccessToken (token f)) EmptyString); [reflexivity|].
  destruct (time.IsZero (Expiry (token f))); simpl; [reflexivity|].
  destruct (Now (clock f)) as [now c]; reflexivity.
Qed.

(** [refreshRequired] always returns, touches neither cache, configuration
    nor adapter, and calls no adapter. *)
Lemma refreshRequired_frame f :
  exists b, outcome (Fetcher_refreshRequired f) = Returns b
    /\ token (after (Fetcher_refreshRequired f)) = token f
    /\ config' (after (Fetcher_refreshRequired f)) = config' f
    /\ adapter (after (Fetcher_refreshRequired f)) = adapter f
    /\ adapterCalls (calls (Fetcher_refreshRequired f)) = [].
Proof.
  rewrite refreshRequired_run.
  destruct (String.eqb _ _); [eexists; repeat split|].
  destruct (time.IsZero _); eexists; repeat split.
Qed.

Lemma refreshRequired_total f :
  outcome (Fetcher_refreshRequired f) = Returns true
  \/ outcome (Fetcher_refreshRequired f) = Returns false.
Proof.
  destruct (refreshRequired_frame f) as ([|] & Hb & _); auto.
Qed.

(** When [refreshRequired] answers true. *)
Lemma refreshRequired_true f :
  outcome (Fetcher_refreshRequired f) = Returns true <->
  AccessToken (token f) = EmptyString
  \/ (Expiry (token f) <> time.zero
      /\ time.Before (Expiry (token f))
           (time.Add (reading f) (tokenExpiryBuffer (config' f))) = true).
Proof.
  rewrite refreshRequired_run.
  destruct (String.eqb_spec (AccessToken (token f)) EmptyString) as [Ha|Ha].
  - rewrite outcome_run; split; auto.
  - destruct (time.IsZero (Expiry (token f))) eqn:Hz; rewrite outcome_run.
    + apply IsZero_true in Hz; split; [discriminate|].
      intros [E|[E _]]; contradiction.
    + apply IsZero_false in Hz; split.
      * intros [= E]; right; split; assumption.
      * intros [E|[_ E]]; [contradiction|rewrite E; reflexivity].
Qed.


(* ===================================================================== *)
(** * Fetch *)
(* ===================================================================== *)

(** The three ways through [refresh]. *)
Lemma refresh_run f ctx :
  Fetcher_refresh ctx f =
    match answerTo f ctx with
    | Returns (t, None) =>
        (Returns (t, None), refreshed f ctx t, [AdapterFetch ctx])
    | Returns (_, Some err) =>
        (Returns (zeroToken, Some err), refreshed f ctx (token f),
         [AdapterFetch ctx])
    | Panics msg =>
        (Panics msg, refreshed f ctx (token f), [AdapterFetch ctx])
    end.
Proof.
  unfold Fetcher_refresh, bind, adapter_Fetch, set_token, ret, answerTo,
    refreshed.
  destruct (Adapter_Fetch ctx (adapter f)) as [[[t [e|]]|msg] a];
    reflexivity.
Qed.

(** [refresh] makes one interface call: the adapter's [Fetch], with the
    context it was given. *)
Lemma refresh_calls f ctx :
  calls (Fetcher_refresh ctx f) = [AdapterFetch ctx].
Proof.
  rewrite refresh_run.
  destruct (answerTo f ctx) as [[t [e|]]|msg]; reflexivity.
Qed.

Lemma Fetch_run f ctx :
  Fetcher_Fetch ctx f =
    match Fetcher_refreshRequired f with
    | (Returns true, f1, l1) =>
        (outcome (Fetcher_refresh ctx f1), after (Fetcher_refresh ctx f1),
         l1 ++ calls (Fetcher_refresh ctx f1))
    | (Returns false, f1, l1) => (Returns (token f1, None), f1, l1)
    | (Panics msg, f1, l1) => (Panics msg, f1, l1)
    end.
Proof.
  unfold Fetcher_Fetch, bind at 1.
  destruct (Fetcher_refreshRequired f) as [[[[|]|msg] f1] l1];
    try reflexivity.
  - unfold outcome, after, calls.
    destruct (Fetcher_refresh ctx f1) as [[r f2] l2]; reflexivity.
  - unfold bind, get, ret; rewrite app_nil_r; reflexivity.
Qed.

(** The cache-hit path. *)
Lemma Fetch_hit f ctx :
  outcome (Fetcher_refreshRequired f) = Returns false ->
  Fetcher_Fetch ctx f =
    (Returns (token f, None), after (Fetcher_refreshRequired f),
     calls (Fetcher_refreshRequired f)).
Proof.
  intros Hr; rewrite Fetch_run.
  destruct (refreshRequired_frame f) as (b & _ & Ht & _).
  rewrite (run_eta (Fetcher_refreshRequired f)), Hr, Ht; reflexivity.
Qed.

Lemma Fetch_hit_calls f ctx :
  outcome (Fetcher_refreshRequired f) = Returns false ->
  adapterCalls (calls (Fetcher_Fetch ctx f)) = [].
Proof.
  intros Hr; rewrite (Fetch_hit f ctx Hr), calls_run.
  destruct (refreshRequired_frame f) as (b & _ & _ & _ & _ & Hl); exact Hl.
Qed.

(** The refresh path. *)
Lemma Fetch_miss f ctx :
  outcome (Fetcher_refreshRequired f) = Returns true ->
  Fetcher_Fetch ctx f =
    (outcome (Fetcher_refresh ctx (after (Fetcher_refreshRequired f))),
     after (Fetcher_refresh ctx (after (Fetcher_refreshRequired f))),
     calls (Fetcher_refreshRequired f)
       ++ calls (Fetcher_refresh ctx (after (Fetcher_refreshRequired f)))).
Proof.
  intros Hr; rewrite Fetch_run.
  rewrite (run_eta (Fetcher_refreshRequired f)) at 1; rewrite Hr.
  reflexivity.
Qed.

(** The adapter answers the same before and after [refreshRequired]. *)
Lemma answerTo_after_refreshRequired f ctx :
  answerTo (after (Fetcher_refreshRequired f)) ctx = answerTo f ctx.
Proof.
  destruct (refreshRequired_frame f) as (b & _ & _ & _ & Ha & _).
  unfold answerTo; rewrite Ha; reflexivity.
Qed.

(** On the refresh path the adapter is called once, with the context of
    the call. *)
Lemma Fetch_miss_calls f ctx :
  outcome (Fetcher_refreshRequired f) = Returns true ->
  adapterCalls (calls (Fetcher_Fetch ctx f)) = [ctx].
Proof.
  intros Hr; rewrite (Fetch_miss f ctx Hr).
  destruct (refreshRequired_frame f) as (b & _ & _ & _ & _ & Hc).
  rewrite calls_run, adapterCalls_app, Hc, refresh_calls; reflexivity.
Qed.

(** The refresh path when the adapter succeeds: its token is returned and
    cached. *)
Lemma Fetch_miss_ok f ctx (t : Token) :
  outcome (Fetcher_refreshRequired f) = Returns true ->
  answerTo f ctx = Returns (t, None) ->
  outcome (Fetcher_Fetch ctx f) = Returns (t, None)
  /\ token (after (Fetcher_Fetch ctx f)) = t.
Proof.
  intros Hr Ha; rewrite (Fetch_miss f ctx Hr).
  rewrite outcome_run, after_run.
  rewrite refresh_run, answerTo_after_refreshRequired, Ha.
  split; reflexivity.
Qed.

(** The refresh path when the adapter fails: the zero Token and the
    adapter's error are returned, and the cache keeps what it held. *)
Lemma Fetch_miss_err f ctx (t : Token) (e : error) :
  outcome (Fetcher_refreshRequired f) = Returns true ->
  answerTo f ctx = Returns (t, Some e) ->
  outcome (Fetcher_Fetch ctx f) = Returns (zeroToken, Some e)
  /\ token (after (Fetcher_Fetch ctx f)) = token f
  /\ config' (after (Fetcher_Fetch ctx f)) = config' f.
Proof.
  intros Hr Ha; rewrite (Fetch_miss f ctx Hr).
  destruct (refreshRequired_frame f) as (b & _ & Ht & Hc & _).
  rewrite outcome_run, !after_run.
  rewrite refresh_run, answerTo_after_refreshRequired, Ha.
  repeat split; assumption.
Qed.

(** The refresh path, read backwards from a nil error. *)
Lemma Fetch_miss_nil f ctx (tok : Token) :
  outcome (Fetcher_refreshRequired f) = Returns true ->
  outcome (Fetcher_Fetch ctx f) = Returns (tok, None) ->
  answerTo f ctx = Returns (tok, None).
Proof.
  intros Hr Ho; rewrite (Fetch_miss f ctx Hr) in Ho.
  rewrite outcome_run in Ho.
  rewrite refresh_run, answerTo_after_refreshRequired in Ho.
  destruct (answerTo f ctx) as [[t [e|]]|msg];
    rewrite outcome_run in Ho; congruence.
Qed.

(** C2. When the refresh-required predicate is false, Fetch returns the
    cached Token with a nil error, calls no adapter, and leaves the cached
    token, the configuration and the adapter as they were. *)
Theorem Fetch_serves_cache f ctx :
  outcome (Fetcher_refreshRequired f) = Returns false ->
  outcome (Fetcher_Fetch ctx f) = Returns (token f, None)
  /\ adapterCalls (calls (Fetcher_Fetch ctx f)) = []
  /\ token (after (Fetcher_Fetch ctx f)) = token f
  /\ config' (after (Fetcher_Fetch ctx f)) = config' f
  /\ adapter (after (Fetcher_Fetch ctx f)) = adapter f.
Proof.
  intros Hr; split; [|split; [apply Fetch_hit_calls; exact Hr|]];
    rewrite (Fetch_hit f ctx Hr).
  - apply outcome_run.
  - destruct (refreshRequired_frame f) as (b & _ & Ht & Hc & Ha & _).
    rewrite !after_run; repeat split; assumption.
Qed.

(** C3. A Fetch calls the adapter at most once.  When the refresh-required
    predicate is true (as it is for an empty cache) it calls the adapter
    exactly once, and when the adapter succeeds the cached Token is replaced
    by the adapter's Token, which is also what Fetch returns. *)
Theorem Fetch_refreshes_once f ctx :
  (List.length (adapterCalls (calls (Fetcher_Fetch ctx f))) <= 1)%nat
  /\ (token f = zeroToken ->
      outcome (Fetcher_refreshRequired f) = Returns true)
  /\ (outcome (Fetcher_refreshRequired f) = Returns true ->
      List.length (adapterCalls (calls (Fetcher_Fetch ctx f))) = 1%nat
      /\ forall t : Token,
           answerTo f ctx = Returns (t, None) ->
           outcome (Fetcher_Fetch ctx f) = Returns (t, None)
           /\ token (after (Fetcher_Fetch ctx f)) = t).
Proof.
  split; [|split].
  - destruct (refreshRequired_total f) as [Hr|Hr].
    + rewrite (Fetch_miss_calls f ctx Hr); simpl; lia.
    + rewrite (Fetch_hit_calls f ctx Hr); simpl; lia.
  - intros Hz; apply refreshRequired_true.
    left; rewrite Hz; reflexivity.
  - intros Hr; split.
    + rewrite (Fetch_miss_calls f ctx Hr); reflexivity.
    + intros t Ha; apply Fetch_miss_ok; assumption.
Qed.




End FetcherProperties.

(* ===================================================================== *)
(** * Construction and options *)
(* ===================================================================== *)





(** A new Fetcher has an empty cache, so its first Fetch refreshes. *)
Lemma New_empty_cache {A : Type} (host : nat -> time.Time) (a : A)
    (opts : list Option) :
  token (New host a opts) = zeroToken.
Proof. reflexivity. Qed.

(* ===================================================================== *)
(** * The Secrets Manager adapter *)
(* ===================================================================== *)

Section SecretsManagerProperties.

Context {K : Type} {sm : awsSecretsManagerClient K} {syn : Syntax}.

Implicit Types (a : awsSecretsManagerAdapter K) (ctx : Context).

(** The four ways through the adapter's [Fetch]. *)
Lemma awsSecretsManagerAdapter_Fetch_run a ctx :
  fst (awsSecretsManagerAdapter_Fetch ctx a) =
    match storeAnswer a ctx with
    | (_, Some e) =>
        Returns (zeroToken,
                 Some (Errorf_w
                         "unable to fetch token from secrets manager: " e))
    | (None, None) => Panics nilDereference
    | (Some o, None) =>
        match SecretString o with
        | None => Panics nilDereference
        | Some data =>
            match json_Unmarshal data zeroToken with
            | (_, Some e) =>
                Returns (zeroToken,
                         Some (Errorf_w
                                 "unable to parse token from secrets manager: "
                                 e))
            | (t, None) => Returns (t, None)
            end
        end
    end.
Proof.
  unfold awsSecretsManagerAdapter_Fetch, storeAnswer.
  destruct (GetSecretValue ctx _ (client a)) as [[[o|] [e|]] k];
    try reflexivity.
  simpl; destruct (SecretString o) as [data|]; [|reflexivity].
  destruct (json_Unmarshal data zeroToken) as [t [e|]]; reflexivity.
Qed.

(** C6, as the code has it.  The adapter's Fetch returns an error exactly
    when the store call or the decoding of the payload fails.  On a store
    error it returns the zero Token and an error that wraps the store's
    error, with the text "unable to fetch token from secrets manager: "
    before the store's message; on a decoding error the zero Token and an
    error that wraps the decoding error, with the text "unable to parse
    token from secrets manager: " before its message.  Whenever it returns
    an error the Token is the zero Token. *)
Theorem awsSecretsManagerAdapter_Fetch_errors a ctx :
  (forall e, storeFails a ctx e ->
     fst (awsSecretsManagerAdapter_Fetch ctx a) =
       Returns (zeroToken,
                Some (wrapError
                        ("unable to fetch token from secrets manager: "
                         ++ Error e)%string e)))
  /\ (forall e, parseFails a ctx e ->
        fst (awsSecretsManagerAdapter_Fetch ctx a) =
          Returns (zeroToken,
                   Some (wrapError
                           ("unable to parse token from secrets manager: "
                            ++ Error e)%string e)))
  /\ (forall tok err,
        fst (awsSecretsManagerAdapter_Fetch ctx a) = Returns (tok, Some err)
        -> tok = zeroToken
           /\ exists e, Unwrap err = Some e
                /\ (storeFails a ctx e \/ parseFails a ctx e)).
Proof.
  rewrite awsSecretsManagerAdapter_Fetch_run.
  unfold storeFails, parseFails.
  destruct (storeAnswer a ctx) as [[o|] [e0|]] eqn:Hs; cbn [fst snd].
  - split; [|split].
    + intros e [= ->]; reflexivity.
    + intros e (o' & data & t & [=] & _).
    + intros tok err [= <- <-]; split; [reflexivity|].
      exists e0; split; [reflexivity|left; reflexivity].
  - split; [intros e [=]|].
    destruct (SecretString o) as [data|] eqn:Hd.
    + destruct (json_Unmarshal data zeroToken) as [t [e1|]] eqn:Hu.
      * split.
        -- intros e (o' & data' & t' & [= <-] & Hd' & Hu').
           rewrite Hd in Hd'; injection Hd' as <-.
           rewrite Hu in Hu'; injection Hu' as _ <-; reflexivity.
        -- intros tok err [= <- <-]; split; [reflexivity|].
           exists e1; split; [reflexivity|right].
           exists o, data, t; repeat split; assumption.
      * split.
        -- intros e (o' & data' & t' & [= <-] & Hd' & Hu').
           rewrite Hd in Hd'; injection Hd' as <-.
           rewrite Hu in Hu'; discriminate Hu'.
        -- intros tok err [=].
    + split.
      * intros e (o' & data' & t' & [= <-] & Hd' & _).
        rewrite Hd in Hd'; discriminate Hd'.
      * intros tok err [=].
  - split; [|split].
    + intros e [= ->]; reflexivity.
    + intros e (o' & data & t & [=] & _).
    + intros tok err [= <- <-]; split; [reflexivity|].
      exists e0; split; [reflexivity|left; reflexivity].
  - split; [intros e [=]|].
    split; [|intros tok err [=]].
    intros e (o' & data' & t' & [=] & _).
Qed.

(** C10. The adapter's Fetch reads the secret string of a successful
    response without a nil check: a successful response without one panics
    with a nil dereference, whatever the payload syntax, and so does a
    successful call without a response; with a secret string present, or on
    a store error, Fetch returns.  So Fetch returns exactly when the store
    failed or its response carries a secret string. *)
Theorem awsSecretsManagerAdapter_Fetch_domain a ctx :
  (forall o, storeAnswer a ctx = (Some o, None) -> SecretString o = None ->
     fst (awsSecretsManagerAdapter_Fetch ctx a) = Panics nilDereference)
  /\ (storeAnswer a ctx = (None, None) ->
      fst (awsSecretsManagerAdapter_Fetch ctx a) = Panics nilDereference)
  /\ ((exists r, fst (awsSecretsManagerAdapter_Fetch ctx a) = Returns r)
      <-> (exists e, storeFails a ctx e)
          \/ (exists o data,
                fst (storeAnswer a ctx) = Some o
                /\ SecretString o = Some data)).
Proof.
  rewrite awsSecretsManagerAdapter_Fetch_run.
  unfold storeFails.
  destruct (storeAnswer a ctx) as [[o|] [e0|]] eqn:Hs; cbn [fst snd].
  - split; [intros o' [=]|]. split; [intros [=]|].
    split; [left; exists e0; reflexivity|eexists; reflexivity].
  - split; [intros o' [= <-] ->; reflexivity|].
    split; [intros [=]|].
    destruct (SecretString o) as [data|] eqn:Hd.
    + split.
      * intros _; right; exists o, data; split; [reflexivity|exact Hd].
      * intros _.
        destruct (json_Unmarshal data zeroToken) as [t [e1|]];
          eexists; reflexivity.
    + split.
      * intros [r [=]].
      * intros [[e [=]]|(o' & data & [= <-] & Hd')].
        rewrite Hd in Hd'; discriminate Hd'.
  - split; [intros o' [=]|]. split; [intros [=]|].
    split; [left; exists e0; reflexivity|eexists; reflexivity].
  - split; [intros o' [=]|]. split; [reflexivity|].
    split.
    + intros [r [=]].
    + intros [[e [=]]|(o' & data & [=] & _)].
Qed.

End SecretsManagerProperties.

(* ===================================================================== *)
(** * The secret payload *)
(* ===================================================================== *)

Section PayloadProperties.

Context {syn : Syntax}.

Lemma fieldOf_tag (f : Field) : fieldOf (tag f) = Some f.
Proof. destruct f; reflexivity. Qed.

(** A text member is decoded into its field. *)
Lemma decodeMembers_text (key : string) (f : Field) (s : string)
    (rest : list (string * Value)) (t : Token) (saved : option error) :
  fieldOf key = Some f ->
  isTime f = false ->
  decodeMembers ((key, JString s) :: rest) t saved
  = decodeMembers rest (setText f s t) saved.
Proof.
  intros Hk Hf; cbn [decodeMembers decodeMember].
  rewrite Hk, Hf; reflexivity.
Qed.

(** A timestamp member whose text parses is decoded into its field. *)
Lemma decodeMembers_time (key : string) (f : Field) (s : string)
    (x : time.Time) (rest : list (string * Value)) (t : Token)
    (saved : option error) :
  fieldOf key = Some f ->
  isTime f = true ->
  parseTime s = Some x ->
  decodeMembers ((key, JString s) :: rest) t saved
  = decodeMembers rest (setTime f x t) saved.
Proof.
  intros Hk Hf Hp; cbn [decodeMembers decodeMember].
  rewrite Hk, Hf, Hp; reflexivity.
Qed.

(** What the encoder writes for a text field that may be left out. *)
Lemma textMember_cases (f : Field) (s : string) :
  (textMember true f s = [] /\ s = EmptyString)
  \/ textMember true f s = [(tag f, JString s)].
Proof.
  unfold textMember; simpl.
  destruct (String.eqb_spec s EmptyString) as [E|E]; auto.
Qed.

(** What the encoder writes for a timestamp. *)
Lemma timeMember_cases (omitzero : bool) (f : Field) (x : time.Time)
    (ms : list (string * Value)) :
  survives x ->
  timeMember omitzero f x = Some ms ->
  (ms = [] /\ x = time.zero)
  \/ (exists s, ms = [(tag f, JString s)] /\ parseTime s = Some x).
Proof.
  intros Hx; unfold timeMember.
  destruct (omitzero && time.IsZero x) eqn:Ho.
  - intros [= <-]; left; split; [reflexivity|].
    apply andb_true_iff in Ho; apply IsZero_true; apply Ho.
  - destruct (formatTime x) as [s|] eqn:Hf; [|discriminate].
    intros [= <-]; right; exists s; split; [reflexivity|].
    apply Hx; exact Hf.
Qed.

Lemma Token_eta (t : Token) :
  mkToken (AccessToken t) (TokenType t) (RefreshToken t) (Expiry t)
    (CreatedAt t) = t.
Proof. destruct t; reflexivity. Qed.

(** Decoding what the encoder wrote. *)
Lemma decode_encoded (omitzero : bool) (t : Token) (v : Value) :
  survives (Expiry t) ->
  survives (CreatedAt t) ->
  MarshalToken omitzero t = Some v ->
  UnmarshalToken v zeroToken = (t, None).
Proof.
  destruct t as [a ty r ex cr];
    cbn [AccessToken TokenType RefreshToken Expiry CreatedAt].
  intros He Hc; unfold MarshalToken;
    cbn [AccessToken TokenType RefreshToken Expiry CreatedAt].
  destruct (timeMember omitzero fExpiry ex) as [e|] eqn:Eq1; [|discriminate].
  destruct (timeMember omitzero fCreatedAt cr) as [c|] eqn:Eq2;
    [|discriminate].
  intros [= <-].
  apply (timeMember_cases _ _ _ _ He) in Eq1.
  apply (timeMember_cases _ _ _ _ Hc) in Eq2.
  change (textMember false fAccessToken a)
    with [(tag fAccessToken, JString a)].
  unfold UnmarshalToken.
  destruct (textMember_cases fTokenType ty) as [[-> ->]| ->];
    destruct (textMember_cases fRefreshToken r) as [[-> ->]| ->];
    destruct Eq1 as [[-> ->]|(s1 & -> & P1)];
    destruct Eq2 as [[-> ->]|(s2 & -> & P2)];
    cbn [app];
    repeat (erewrite decodeMembers_text by reflexivity);
    repeat (erewrite decodeMembers_time by (reflexivity || eassumption));
    reflexivity.
Qed.


(** Members the struct tags do not name are passed over. *)
Lemma decodeMembers_unknown (key : string) (v : Value)
    (rest : list (string * Value)) (t : Token) (saved : option error) :
  fieldOf key = None ->
  decodeMembers ((key, v) :: rest) t saved = decodeMembers rest t saved.
Proof.
  intros Hk; cbn [decodeMembers decodeMember]; rewrite Hk; reflexivity.
Qed.

(** A text that is no JSON document leaves the target as it was. *)
Lemma json_Unmarshal_syntax_error (data : string) (t : Token) (e : error) :
  json_parse data = inr e -> json_Unmarshal data t = (t, Some e).
Proof. intros H; unfold json_Unmarshal; rewrite H; reflexivity. Qed.

End PayloadProperties.

(* ===================================================================== *)
(** * The text of a timestamp *)
(* ===================================================================== *)

(** Linear arithmetic with division and remainder by constants. *)
Ltac divlia := Z.to_euclidean_division_equations; lia.

Lemma code_chr (n : Z) : 0 <= n < 256 -> code (chr n) = n.
Proof.
  intros Hn; unfold code, chr.
  rewrite N_ascii_embedding by lia.
  apply Z2N.id; lia.
Qed.

Lemma code_digit (k : Z) : 0 <= k <= 9 -> code (digit k) = 48 + k.
Proof. intros Hk; unfold digit; apply code_chr; lia. Qed.

Lemma isDigit_digit (k : Z) : 0 <= k <= 9 -> isDigit (digit k) = true.
Proof.
  intros Hk; unfold isDigit; rewrite code_digit by exact Hk.
  apply andb_true_iff; split; apply Z.leb_le; lia.
Qed.

Lemma num2_digits (a b : Z) (rest : string) :
  0 <= a <= 9 -> 0 <= b <= 9 ->
  num2 (String (digit a) (String (digit b) rest)) = Some (10 * a + b, rest).
Proof.
  intros Ha Hb; cbn [num2].
  rewrite !isDigit_digit, !code_digit by assumption; cbn [andb].
  f_equal; f_equal; lia.
Qed.

Lemma num2_pad2 (n : Z) (rest : string) :
  0 <= n < 100 -> num2 (pad2 n ++ rest)%string = Some (n, rest).
Proof.
  intros Hn; unfold pad2; cbn [append].
  rewrite num2_digits by divlia.
  f_equal; f_equal; divlia.
Qed.

Lemma num4_pad4 (n : Z) (rest : string) :
  0 <= n < 10000 -> num4 (pad4 n ++ rest)%string = Some (n, rest).
Proof.
  intros Hn; unfold pad4, pad2, num4; cbn [append].
  rewrite num2_digits by divlia; cbn [obind].
  rewrite num2_digits by divlia; cbn [obind].
  f_equal; f_equal; divlia.
Qed.

(** The digits of a fraction are digits, and read back as the fraction. *)
Lemma takeDigits_fraction (w : nat) (n : Z) (c : ascii) (rest : string) :
  0 <= n < 10 ^ Z.of_nat w ->
  isDigit c = false ->
  takeDigits (fraction w n ++ String c rest)%string
  = (fraction w n, String c rest).
Proof.
  revert n; induction w as [|w IH]; intros n Hn Hc.
  - cbn [fraction append takeDigits]; rewrite Hc; reflexivity.
  - cbn [fraction].
    destruct (n =? 0) eqn:Hz.
    + cbn [append takeDigits]; rewrite Hc; reflexivity.
    + rewrite Nat2Z.inj_succ, Z.pow_succ_r in Hn by lia.
      assert (Hp : 0 < 10 ^ Z.of_nat w) by (apply Z.pow_pos_nonneg; lia).
      assert (Hq : 0 <= n / 10 ^ Z.of_nat w <= 9).
      { split; [apply Z.div_pos; lia|].
        apply Z.lt_succ_r, Z.div_lt_upper_bound; lia. }
      cbn [append takeDigits].
      rewrite isDigit_digit by exact Hq.
      rewrite IH; [reflexivity| |exact Hc].
      apply Z.mod_pos_bound; exact Hp.
Qed.

Lemma scaled_fraction (w : nat) (n : Z) :
  0 <= n < 10 ^ Z.of_nat w -> scaled w (fraction w n) = n.
Proof.
  revert n; induction w as [|w IH]; intros n Hn.
  - cbn [fraction scaled]; simpl in Hn; lia.
  - cbn [fraction].
    destruct (Z.eqb_spec n 0) as [->|Hz]; [reflexivity|].
    rewrite Nat2Z.inj_succ, Z.pow_succ_r in Hn by lia.
    assert (Hp : 0 < 10 ^ Z.of_nat w) by (apply Z.pow_pos_nonneg; lia).
    assert (Hq : 0 <= n / 10 ^ Z.of_nat w <= 9).
    { split; [apply Z.div_pos; lia|].
      apply Z.lt_succ_r, Z.div_lt_upper_bound; lia. }
    cbn [scaled].
    rewrite code_digit by exact Hq.
    rewrite IH by (apply Z.mod_pos_bound; exact Hp).
    pose proof (Z.div_mod n (10 ^ Z.of_nat w)); lia.
Qed.

Lemma fraction_nonempty (w : nat) (n : Z) :
  n <> 0 -> fraction (S w) n <> EmptyString.
Proof.
  intros Hn; cbn [fraction].
  destruct (Z.eqb_spec n 0); [contradiction|discriminate].
Qed.

(** The parts of [civil], with their ranges: the day [doe] of the 400-year
    cycle [era], its year [yoe] there, the day [doy] of that year, which
    starts in March, and its month [mp], counted from March. *)
Ltac civil_parts days :=
  unfold civil; cbv zeta;
  set (z := days + 306);
  set (era := z / 146097);
  set (doe := z - era * 146097);
  set (yoe := (doe - doe / 1460 + doe / 36524 - doe / 146096) / 365);
  set (doy := doe - (365 * yoe + yoe / 4 - yoe / 100));
  set (mp := (5 * doy + 2) / 153);
  assert (Hdoe : 0 <= doe < 146097) by (subst doe era; divlia);
  assert (Hyoe : 0 <= yoe <= 399) by (subst yoe; divlia);
  assert (Hdoy : 0 <= doy <= 365) by (subst doy yoe; divlia);
  assert (Hmp : 0 <= mp <= 11) by (subst mp; divlia).

(** [daysBefore] undoes [civil]. *)
Lemma civil_days (days : Z) :
  let '(y, m, d) := civil days in
  1 <= m <= 12 /\ 1 <= d /\ time.daysBefore y m d = days.
Proof.
  civil_parts days.
  unfold time.daysBefore; cbv zeta.
  destruct (Z.ltb_spec mp 10) as [H10|H10].
  - destruct (Z.leb_spec (mp + 3) 2) as [H2|H2]; [lia|].
    replace ((mp + 3 + 9) mod 12) with mp by divlia.
    replace ((yoe + era * 400 + 0) / 400) with era by divlia.
    split; [lia|]. split; [subst mp; divlia|].
    subst doy doe z; divlia.
  - destruct (Z.leb_spec (mp - 9) 2) as [H2|H2]; [|lia].
    replace ((mp - 9 + 9) mod 12) with mp by divlia.
    replace ((yoe + era * 400 + 1 - 1) / 400) with era by divlia.
    split; [lia|]. split; [subst mp; divlia|].
    subst doy doe z; divlia.
Qed.

(** The day [civil] yields is a day of its month: the year that starts in
    March has a 366th day only before a leap February ends. *)
Lemma civil_day_in_month (days : Z) :
  let '(y, m, d) := civil days in d <= daysIn y m.
Proof.
  civil_parts days.
  assert (Hleap : doy = 365 ->
                  (yoe + 1) mod 4 = 0
                  /\ ((yoe + 1) mod 100 <> 0 \/ yoe + 1 = 400))
    by (subst doy yoe; divlia).
  assert (Hd : 153 * mp <= 5 * doy + 2 < 153 * mp + 153)
    by (subst mp; divlia).
  clearbody mp doy yoe era.
  set (m := if mp <? 10 then mp + 3 else mp - 9).
  assert (Hm : (mp < 10 /\ m = mp + 3) \/ (10 <= mp /\ m = mp - 9))
    by (subst m; destruct (Z.ltb_spec mp 10); lia).
  clearbody m.
  set (y := yoe + era * 400 + (if m <=? 2 then 1 else 0)).
  assert (Hy : (m <= 2 /\ y = yoe + era * 400 + 1)
               \/ (2 < m /\ y = yoe + era * 400))
    by (subst y; destruct (Z.leb_spec m 2); lia).
  clearbody y.
  unfold daysIn, isLeap.
  repeat match goal with
         | |- context [Z.eqb ?a ?b] => destruct (Z.eqb_spec a b)
         end;
    cbn [andb orb negb]; divlia.
Qed.

Lemma civil_inv (days y m d : Z) :
  civil days = (y, m, d) ->
  1 <= m <= 12 /\ 1 <= d <= daysIn y m /\ time.daysBefore y m d = days.
Proof.
  intros Hc.
  pose proof (civil_days days) as H1.
  pose proof (civil_day_in_month days) as H2.
  rewrite Hc in H1, H2; lia.
Qed.

Lemma char_cons (k : Z) (c : ascii) (r : string) :
  code c = k -> char k (String c r) = Some r.
Proof. intros <-; cbn [char]; rewrite Z.eqb_refl; reflexivity. Qed.

Lemma char_other (k : Z) (c : ascii) (r : string) :
  code c <> k -> char k (String c r) = None.
Proof.
  intros H; cbn [char].
  destruct (Z.eqb_spec (code c) k); [contradiction|reflexivity].
Qed.

(** The time a formatted text denotes is the time that was formatted. *)
Lemma formatRFC3339_parse (x : time.Time) (s : string) :
  formatRFC3339 x = Some s -> parseRFC3339 s = Some x.
Proof.
  unfold formatRFC3339.
  set (ns := time.instant x).
  set (secs := ns / time.Second).
  set (nsec := ns mod time.Second).
  set (sod := secs mod 86400).
  destruct (civil (secs / 86400)) as [[y m] d] eqn:Hc.
  destruct ((0 <=? y) && (y <=? 9999)) eqn:Hy; [|discriminate].
  intros H.
  assert (E : s = (pad4 y ++ "-" ++ pad2 m ++ "-" ++ pad2 d ++ "T"
          ++ pad2 (sod / 3600) ++ ":" ++ pad2 (sod mod 3600 / 60) ++ ":"
          ++ pad2 (sod mod 60)
          ++ (if (nsec =? 0)%Z then "" else "." ++ fraction 9 nsec)
          ++ "Z")%string) by congruence.
  subst s; clear H.
  apply andb_true_iff in Hy; destruct Hy as [Hy0 Hy1].
  apply Z.leb_le in Hy0, Hy1.
  destruct (civil_inv _ _ _ _ Hc) as (Hm & Hd & Hdays).
  assert (Hd31 : daysIn y m <= 31).
  { unfold daysIn;
      repeat match goal with
             | |- context [if ?b then _ else _] => destruct b
             end; lia. }
  assert (Hsod : 0 <= sod < 86400) by (subst sod; apply Z.mod_pos_bound; lia).
  assert (Hnsec : 0 <= nsec < 10 ^ Z.of_nat 9)
    by (subst nsec; apply Z.mod_pos_bound; reflexivity).
  unfold parseRFC3339.
  rewrite num4_pad4 by lia; cbn [obind append].
  rewrite char_cons by reflexivity; cbn [obind].
  rewrite num2_pad2 by lia; cbn [obind append].
  rewrite char_cons by reflexivity; cbn [obind].
  rewrite num2_pad2 by lia; cbn [obind append].
  rewrite char_cons by reflexivity; cbn [obind].
  rewrite num2_pad2 by divlia; cbn [obind append].
  rewrite char_cons by reflexivity; cbn [obind].
  rewrite num2_pad2 by divlia; cbn [obind append].
  rewrite char_cons by reflexivity; cbn [obind].
  rewrite num2_pad2 by divlia; cbn [obind append].
  assert (Hcond :
    (1 <=? m) && (m <=? 12) && (1 <=? d) && (d <=? daysIn y m)
    && (sod / 3600 <? 24) && (sod mod 3600 / 60 <? 60) && (sod mod 60 <? 60)
    = true).
  { repeat (apply andb_true_iff; split);
      try (apply Z.leb_le; lia); apply Z.ltb_lt; divlia. }
  assert (Hdate :
    time.Date y m d (sod / 3600) (sod mod 3600 / 60) (sod mod 60) nsec = x).
  { unfold time.Date; rewrite Hdays.
    apply instant_inj; cbn [time.instant]; fold ns.
    subst sod nsec secs; unfold time.Second, time.Millisecond,
      time.Microsecond, time.Nanosecond; divlia. }
  destruct (Z.eqb_spec nsec 0) as [Hz|Hz].
  - cbn [append].
    rewrite char_other by (vm_compute; discriminate); cbn [obind zone].
    change (code "Z" =? 90) with true; cbn [obind].
    change (("" =? "")%string) with true; cbn [andb].
    rewrite Hcond, Hz in *. rewrite Hdate.
    change (- 0 * time.Second) with 0; rewrite Add_zero; reflexivity.
  - cbn [append].
    rewrite char_cons by reflexivity.
    rewrite takeDigits_fraction by (exact Hnsec || reflexivity).
    destruct (String.eqb_spec (fraction 9 nsec) "") as [E|_];
      [exfalso; revert E; apply fraction_nonempty; exact Hz|].
    rewrite scaled_fraction by exact Hnsec; cbn [obind zone].
    change (code "Z" =? 90) with true; cbn [obind].
    change (("" =? "")%string) with true; cbn [andb].
    rewrite Hcond, Hdate.
    change (- 0 * time.Second) with 0; rewrite Add_zero; reflexivity.
Qed.

(** Every timestamp survives its RFC 3339 text. *)
Lemma textSyntax_survives (x : time.Time) : @survives textSyntax x.
Proof. intros s Hs; apply formatRFC3339_parse; exact Hs. Qed.

(** A time has an RFC 3339 text exactly when its year is within 0..9999. *)
Lemma formatRFC3339_defined (x : time.Time) :
  (exists s, formatRFC3339 x = Some s) <-> 0 <= year x <= 9999.
Proof.
  unfold formatRFC3339, year.
  destruct (civil (time.instant x / time.Second / 86400)) as [[y m] d].
  cbn [fst].
  destruct ((0 <=? y) && (y <=? 9999)) eqn:Hy.
  - apply andb_true_iff in Hy; destruct Hy as [H0 H1].
    apply Z.leb_le in H0, H1; split; [lia|eexists; reflexivity].
  - split; [intros [s [=]]|].
    intros [H0 H1]; apply Z.leb_le in H0, H1.
    rewrite H0, H1 in Hy; discriminate Hy.
Qed.

(** With RFC 3339 timestamps, every payload the encoder yields decodes to
    the Token it was made from. *)
Lemma Token_text_roundtrip (omitzero : bool) (t : Token) (v : Value) :
  @MarshalToken textSyntax omitzero t = Some v ->
  @UnmarshalToken textSyntax v zeroToken = (t, None).
Proof.
  apply (@decode_encoded textSyntax); apply textSyntax_survives.
Qed.

(** The encoder yields a payload for every Token whose timestamps fall in
    the years 0..9999. *)
Lemma MarshalToken_defined (omitzero : bool) (t : Token) :
  0 <= year (Expiry t) <= 9999 ->
  0 <= year (CreatedAt t) <= 9999 ->
  exists v, @MarshalToken textSyntax omitzero t = Some v.
Proof.
  intros He Hc.
  apply formatRFC3339_defined in He, Hc.
  destruct He as [se He], Hc as [sc Hc].
  unfold MarshalToken, timeMember.
  change (@formatTime textSyntax) with formatRFC3339.
  rewrite He, Hc.
  destruct (omitzero && time.IsZero (Expiry t));
    destruct (omitzero && time.IsZero (CreatedAt t)); eexists; reflexivity.
Qed.

(* ===================================================================== *)
(** * The tests of the repository, run on the model *)
(* ===================================================================== *)

Section Tests.

#[local] Existing Instance textSyntax.

(** TestFetcher_refreshRequired *)
Example test_refreshRequired_empty_token :
  outcome (Fetcher_refreshRequired
             (testFetcher (mkConfig time.Minute) [] zeroToken))
  = Returns true.
Proof. reflexivity. Qed.

Example test_refreshRequired_expiry_past :
  outcome (Fetcher_refreshRequired
             (testFetcher (mkConfig time.Minute) []
                (mkToken "token-123" "" "" past time.zero)))
  = Returns true.
Proof. reflexivity. Qed.

Example test_refreshRequired_expiry_now_buffer :
  outcome (Fetcher_refreshRequired
             (testFetcher (mkConfig time.Minute) []
                (mkToken "token-123" "" "" now time.zero)))
  = Returns true.
Proof. reflexivity. Qed.

Example test_refreshRequired_expiry_now_no_buffer :
  outcome (Fetcher_refreshRequired
             (testFetcher (mkConfig 0) []
                (mkToken "token-123" "" "" now time.zero)))
  = Returns false.
Proof. reflexivity. Qed.

Example test_refreshRequired_expiry_future :
  outcome (Fetcher_refreshRequired
             (testFetcher (mkConfig time.Minute) []
                (mkToken "token-123" "" "" future time.zero)))
  = Returns false.
Proof. reflexivity. Qed.

Example test_refreshRequired_no_expiry :
  outcome (Fetcher_refreshRequired
             (testFetcher (mkConfig time.Minute) [] tok))
  = Returns false.
Proof. reflexivity. Qed.

(** TestFetcher_Fetch *)
Example test_Fetch_valid_token :
  let r := Fetcher_Fetch Background (testFetcher defaultConfig [] tok) in
  outcome r = Returns (tok, None) /\ calls r = [].
Proof. split; reflexivity. Qed.

Example test_Fetch_missing_token :
  let r := Fetcher_Fetch Background
             (testFetcher defaultConfig [(tok, None)] zeroToken) in
  outcome r = Returns (tok, None)
  /\ token (after r) = tok
  /\ received (adapter (after r)) = [Background].
Proof. repeat split; reflexivity. Qed.

Example test_Fetch_adapter_error :
  let r := Fetcher_Fetch Background
             (testFetcher defaultConfig
                [(zeroToken, Some (errorString "error"))] zeroToken) in
  outcome r = Returns (zeroToken, Some (errorString "error"))
  /\ token (after r) = zeroToken.
Proof. split; reflexivity. Qed.

(** The second scenario of the spec: after a refresh the next Fetch is
    served from the cache, with no further adapter call. *)
Example test_Fetch_twice :
  let r1 := Fetcher_Fetch Background
              (testFetcher defaultConfig [(tok, None)] zeroToken) in
  let r2 := Fetcher_Fetch Background (after r1) in
  outcome r2 = Returns (tok, None) /\ calls r2 = [].
Proof. split; reflexivity. Qed.

(** TestFetcher_refresh *)
Example test_refresh_overwrites :
  let r := Fetcher_refresh Background
             (testFetcher defaultConfig [(tok, None)]
                (mkToken "another-token-123" "" "" time.zero time.zero)) in
  outcome r = Returns (tok, None) /\ token (after r) = tok.
Proof. split; reflexivity. Qed.

(** A mock adapter with nothing scripted panics, and so does Fetch. *)
Example test_Fetch_unscripted :
  outcome (Fetcher_Fetch Background (testFetcher defaultConfig [] zeroToken))
  = Panics "mock: I don't know what to return".
Proof. reflexivity. Qed.

(** Test_awsSecretsManagerAdapter_Fetch *)
Example test_adapter_valid_secret :
  let r := awsSecretsManagerAdapter_Fetch Background
             (testAdapter (secretString validSecret, None)) in
  fst r = Returns (fullToken, None)
  /\ requests (client (snd r))
     = [(Background, {| SecretId := Some "secret-key" |})].
Proof. split; vm_compute; reflexivity. Qed.

Example test_adapter_invalid_secret :
  fst (awsSecretsManagerAdapter_Fetch Background
         (testAdapter (secretString invalidSecret, None)))
  = Returns (zeroToken,
             Some (wrapError
                     ("unable to parse token from secrets manager: "
                      ++ Error SyntaxError)%string SyntaxError)).
Proof. vm_compute; reflexivity. Qed.

Example test_adapter_store_error :
  fst (awsSecretsManagerAdapter_Fetch Background
         (testAdapter
            (Some {| SecretBinary := None; SecretString := None |},
             Some (errorString "secrets manager error"))))
  = Returns (zeroToken,
             Some (wrapError
                     "unable to fetch token from secrets manager: secrets manager error"
                     (errorString "secrets manager error"))).
Proof. vm_compute; reflexivity. Qed.

(** The third scenario of the spec: a payload with two of the fields. *)
Example test_adapter_two_fields :
  fst (awsSecretsManagerAdapter_Fetch Background
         (testAdapter
            (secretString
               ("{" ++ quoted "access_token" ++ ":" ++ quoted "token-123"
                ++ "," ++ quoted "expiry" ++ ":"
                ++ quoted "2030-01-02T00:00:00Z" ++ "}")%string, None)))
  = Returns (mkToken "token-123" "" "" now time.zero, None).
Proof. vm_compute; reflexivity. Qed.

(** A payload whose timestamp does not parse: the decoder has filled the
    access token by then, the adapter still returns the zero Token. *)
Example test_adapter_partial_decoding :
  let data := ("{" ++ quoted "access_token" ++ ":" ++ quoted "token-123"
               ++ "," ++ quoted "expiry" ++ ":" ++ quoted "tomorrow"
               ++ "}")%string in
  AccessToken (fst (json_Unmarshal data zeroToken)) = "token-123"
  /\ exists e,
       fst (awsSecretsManagerAdapter_Fetch Background
              (testAdapter (secretString data, None)))
       = Returns (zeroToken, Some e).
Proof. split; [vm_compute; reflexivity|eexists; vm_compute; reflexivity]. Qed.

(** The payload the encoder writes for the token of the adapter's test is
    the document of the valid secret. *)
Example test_Marshal_fullToken :
  option_map inl (MarshalToken true fullToken) = Some (parseJSON validSecret).
Proof. vm_compute; reflexivity. Qed.

End Tests.

(* ===================================================================== *)
(** * The properties at concrete fetchers *)
(* ===================================================================== *)

Section Witnesses.

#[local] Existing Instance textSyntax.


(** A valid cached token is served with no adapter call. *)
Lemma Fetch_serves_cache_witness :
  outcome (Fetcher_Fetch withDeadline (testFetcher defaultConfig [] tok))
  = Returns (tok, None)
  /\ adapterCalls
       (calls (Fetcher_Fetch withDeadline (testFetcher defaultConfig [] tok)))
     = [].
Proof.
  destruct (Fetch_serves_cache (testFetcher defaultConfig [] tok)
              withDeadline) as (Ho & Hc & _).
  - reflexivity.
  - split; [exact Ho|exact Hc].
Defined.

(** An empty cache is refreshed by one adapter call. *)
Lemma Fetch_refreshes_once_witness :
  List.length
    (adapterCalls
       (calls (Fetcher_Fetch Background
                 (testFetcher defaultConfig [(tok, None)] zeroToken))))
  = 1%nat
  /\ token (after (Fetcher_Fetch Background
                     (testFetcher defaultConfig [(tok, None)] zeroToken)))
     = tok.
Proof.
  destruct (Fetch_refreshes_once
              (testFetcher defaultConfig [(tok, None)] zeroToken)
              Background) as (_ & Hz & Hr).
  destruct (Hr (Hz eq_refl)) as (Hn & Hok).
  split; [exact Hn|].
  apply (Hok tok); reflexivity.
Defined.





(** C6 does not hold as the spec states it: the messages of the adapter's
    errors start with "unable to fetch token from secrets manager" and
    "unable to parse token from secrets manager", where the spec has
    "unable to fetch token from store" and "unable to parse token from
    store". *)
Lemma awsSecretsManagerAdapter_Fetch_tags :
  (exists err,
     fst (awsSecretsManagerAdapter_Fetch Background
            (testAdapter (None, Some (errorString "secrets manager error"))))
     = Returns (zeroToken, Some err)
     /\ Error err
        = "unable to fetch token from secrets manager: secrets manager error"
     /\ String.prefix "unable to fetch token from store" (Error err) = false)
  /\ (exists err,
        fst (awsSecretsManagerAdapter_Fetch Background
               (testAdapter (secretString invalidSecret, None)))
        = Returns (zeroToken, Some err)
        /\ String.prefix "unable to parse token from secrets manager: "
             (Error err) = true
        /\ String.prefix "unable to parse token from store" (Error err)
           = false).
Proof.
  split; eexists; (split; [vm_compute; reflexivity|split; reflexivity]).
Qed.

(** The adapter's errors on the failing answers of its test. *)
Lemma awsSecretsManagerAdapter_Fetch_errors_witness :
  fst (awsSecretsManagerAdapter_Fetch Background
         (testAdapter (secretString invalidSecret, None)))
  = Returns (zeroToken,
             Some (wrapError
                     ("unable to parse token from secrets manager: "
                      ++ Error SyntaxError)%string SyntaxError)).
Proof.
  apply (awsSecretsManagerAdapter_Fetch_errors
           (testAdapter (secretString invalidSecret, None)) Background).
  exists {| SecretBinary := None; SecretString := Some invalidSecret |},
    invalidSecret, zeroToken.
  repeat split; vm_compute; reflexivity.
Defined.

(** A secret stored as bytes makes the adapter panic. *)
Lemma awsSecretsManagerAdapter_Fetch_domain_witness :
  fst (awsSecretsManagerAdapter_Fetch Background
         (testAdapter (binarySecret, None)))
  = Panics nilDereference.
Proof.
  apply (awsSecretsManagerAdapter_Fetch_domain
           (testAdapter (binarySecret, None)) Background)
    with (o := {| SecretBinary := Some "bytes"; SecretString := None |});
    reflexivity.
Defined.


End Witnesses.

(* ===================================================================== *)
(** * Fetch, path by path *)
(* ===================================================================== *)


Section FetchPaths.

Context {C A : Type} {clk : Clock C} {adp : Adapter A}.

Implicit Types (f g : Fetcher C A) (ctx : Context).

(** The refresh path, by the adapter's answer. *)
Lemma Fetch_miss_run f ctx :
  outcome (Fetcher_refreshRequired f) = Returns true ->
  Fetcher_Fetch ctx f =
    match answerTo f ctx with
    | Returns (t, None) =>
        (Returns (t, None),
         refreshed (after (Fetcher_refreshRequired f)) ctx t,
         calls (Fetcher_refreshRequired f) ++ [AdapterFetch ctx])
    | Returns (_, Some err) =>
        (Returns (zeroToken, Some err),
         refreshed (after (Fetcher_refreshRequired f)) ctx (token f),
         calls (Fetcher_refreshRequired f) ++ [AdapterFetch ctx])
    | Panics msg =>
        (Panics msg,
         refreshed (after (Fetcher_refreshRequired f)) ctx (token f),
         calls (Fetcher_refreshRequired f) ++ [AdapterFetch ctx])
    end.
Proof.
  intros Hr; rewrite (Fetch_miss f ctx Hr), refresh_run.
  rewrite answerTo_after_refreshRequired.
  destruct (refreshRequired_frame f) as (b & _ & Ht & _).
  rewrite Ht.
  destruct (answerTo f ctx) as [[t [e|]]|msg]; reflexivity.
Qed.

(** The clock readings of [refreshRequired], and the clock after it. *)
Lemma refreshRequired_clock f :
  (AccessToken (token f) = EmptyString \/ Expiry (token f) = time.zero ->
   calls (Fetcher_refreshRequired f) = []
   /\ after (Fetcher_refreshRequired f) = f)
  /\ (AccessToken (token f) <> EmptyString ->
      Expiry (token f) <> time.zero ->
      calls (Fetcher_refreshRequired f) = [ClockNow]
      /\ after (Fetcher_refreshRequired f) = ticked f).
Proof.
  rewrite refreshRequired_run.
  destruct (String.eqb_spec (AccessToken (token f)) EmptyString) as [Ha|Ha].
  - split; [split; reflexivity|contradiction].
  - destruct (time.IsZero (Expiry (token f))) eqn:Hz.
    + apply IsZero_true in Hz.
      split; [split; reflexivity|contradiction].
    + apply IsZero_false in Hz.
      split; [intros [E|E]; contradiction|split; reflexivity].
Qed.

Lemma clockReads_app (l1 l2 : list Event) :
  clockReads (l1 ++ l2) = (clockReads l1 + clockReads l2)%nat.
Proof. unfold clockReads; rewrite filter_app; apply length_app. Qed.

(** The interface calls and the clock of a Fetch, from those of
    [refreshRequired]. *)
Lemma Fetch_clock f ctx :
  clockReads (calls (Fetcher_Fetch ctx f))
  = clockReads (calls (Fetcher_refreshRequired f))
  /\ clock (after (Fetcher_Fetch ctx f))
     = clock (after (Fetcher_refreshRequired f)).
Proof.
  destruct (refreshRequired_total f) as [Hr|Hr].
  - rewrite (Fetch_miss_run f ctx Hr).
    destruct (answerTo f ctx) as [[t [e|]]|msg];
      rewrite calls_run, after_run, clockReads_app;
      (split;
        [change (clockReads [AdapterFetch ctx]) with 0%nat; lia
        |reflexivity]).
  - rewrite (Fetch_hit f ctx Hr), calls_run, after_run; split; reflexivity.
Qed.

(** X1. Whatever Token a Fetch returns with a nil error is the Token the
    cache holds after the call, on the cache path and on the refresh path
    alike. *)
Theorem Fetch_returns_cache f ctx (t : Token) :
  outcome (Fetcher_Fetch ctx f) = Returns (t, None) ->
  token (after (Fetcher_Fetch ctx f)) = t.
Proof.
  intros Ho.
  destruct (refreshRequired_total f) as [Hr|Hr].
  - apply (Fetch_miss_ok f ctx t Hr).
    apply (Fetch_miss_nil f ctx t Hr Ho).
  - rewrite (Fetch_hit f ctx Hr) in *.
    rewrite outcome_run in Ho; rewrite after_run.
    destruct (refreshRequired_frame f) as (b & _ & Ht & _).
    congruence.
Qed.

(** X2. A Fetch never changes the configuration, and it changes the cache
    in one case only: the adapter was called and returned a nil error, and
    then the cache holds the adapter's Token, which is also what Fetch
    returns.  On an error, on a panic and on the cache path the cache is as
    before. *)
Theorem Fetch_frame f ctx :
  config' (after (Fetcher_Fetch ctx f)) = config' f
  /\ (token (after (Fetcher_Fetch ctx f)) = token f
      \/ (answerTo f ctx = Returns (token (after (Fetcher_Fetch ctx f)), None)
          /\ outcome (Fetcher_Fetch ctx f)
             = Returns (token (after (Fetcher_Fetch ctx f)), None)
          /\ adapterCalls (calls (Fetcher_Fetch ctx f)) = [ctx]))
  /\ (forall tok err,
        outcome (Fetcher_Fetch ctx f) = Returns (tok, Some err) ->
        token (after (Fetcher_Fetch ctx f)) = token f)
  /\ (forall msg,
        outcome (Fetcher_Fetch ctx f) = Panics msg ->
        token (after (Fetcher_Fetch ctx f)) = token f).
Proof.
  destruct (refreshRequired_frame f) as (b & _ & Ht & Hc & _).
  destruct (refreshRequired_total f) as [Hr|Hr].
  - pose proof (Fetch_miss_calls f ctx Hr) as Hcalls.
    rewrite (Fetch_miss_run f ctx Hr) in *.
    destruct (answerTo f ctx) as [[t [e|]]|msg] eqn:Ha;
      rewrite ?outcome_run, ?after_run in *; unfold refreshed;
      cbn [config' token].
    + repeat split; auto.
    + split; [exact Hc|]. split; [right; repeat split; assumption|].
      split; [intros tok err [=]|intros msg [=]].
    + repeat split; auto.
  - rewrite (Fetch_hit f ctx Hr), outcome_run, !after_run.
    repeat split; auto.
Qed.

(** X3. Fetch does not recover from a panic of the adapter and does not
    panic by itself: it panics exactly when refresh is required and the
    adapter panics, with the adapter's message, after that one adapter
    call. *)
Theorem Fetch_panics_iff f ctx (msg : string) :
  (outcome (Fetcher_Fetch ctx f) = Panics msg
   <-> outcome (Fetcher_refreshRequired f) = Returns true
       /\ answerTo f ctx = Panics msg)
  /\ (outcome (Fetcher_Fetch ctx f) = Panics msg ->
      adapterCalls (calls (Fetcher_Fetch ctx f)) = [ctx]).
Proof.
  destruct (refreshRequired_total f) as [Hr|Hr].
  - pose proof (Fetch_miss_calls f ctx Hr) as Hcalls.
    split; [|intros _; exact Hcalls].
    rewrite (Fetch_miss_run f ctx Hr).
    destruct (answerTo f ctx) as [[t [e|]]|m]; rewrite outcome_run; split;
      try (intros [=]); try (intros [_ [=]]); subst; auto.
  - rewrite (Fetch_hit f ctx Hr), outcome_run.
    split; [split|]; try (intros [=]).
    intros [Hr' _]; congruence.
Qed.

(** X4. A Fetch reads the clock at most once.  It does not read it at all
    when the cached access token is empty or the cached expiry is the zero
    time, and then leaves the clock as it was; otherwise it reads it exactly
    once, whether it goes on to refresh or not. *)
Theorem Fetch_clock_reads f ctx :
  (clockReads (calls (Fetcher_Fetch ctx f)) <= 1)%nat
  /\ (AccessToken (token f) = EmptyString \/ Expiry (token f) = time.zero ->
      clockReads (calls (Fetcher_Fetch ctx f)) = 0%nat
      /\ clock (after (Fetcher_Fetch ctx f)) = clock f)
  /\ (AccessToken (token f) <> EmptyString ->
      Expiry (token f) <> time.zero ->
      clockReads (calls (Fetcher_Fetch ctx f)) = 1%nat
      /\ clock (after (Fetcher_Fetch ctx f)) = snd (Now (clock f))).
Proof.
  destruct (Fetch_clock f ctx) as [-> ->].
  destruct (refreshRequired_clock f) as [H0 H1].
  assert (Hno : AccessToken (token f) = EmptyString
                \/ Expiry (token f) = time.zero ->
                clockReads (calls (Fetcher_refreshRequired f)) = 0%nat
                /\ clock (after (Fetcher_refreshRequired f)) = clock f).
  { intros H; destruct (H0 H) as [-> ->]; split; reflexivity. }
  assert (Hone : AccessToken (token f) <> EmptyString ->
                 Expiry (token f) <> time.zero ->
                 clockReads (calls (Fetcher_refreshRequired f)) = 1%nat
                 /\ clock (after (Fetcher_refreshRequired f))
                    = snd (Now (clock f))).
  { intros Ha Hz; destruct (H1 Ha Hz) as [-> ->]; split; reflexivity. }
  split; [|split; assumption].
  destruct (String.eqb_spec (AccessToken (token f)) EmptyString) as [Ha|Ha].
  - destruct (Hno (or_introl Ha)) as [-> _]; lia.
  - destruct (time.IsZero (Expiry (token f))) eqn:Hz.
    + apply IsZero_true in Hz; destruct (Hno (or_intror Hz)) as [-> _]; lia.
    + apply IsZero_false in Hz; destruct (Hone Ha Hz) as [-> _]; lia.
Qed.

(** X5. Once a Fetch has returned a Token with a nil error, the fetcher in
    any later state that still holds that cache serves the same Token
    without an adapter call for as long as refresh is not required there:
    always, for a Token with an access token and no expiry, and while the
    clock's reading plus the buffer has not passed the expiry otherwise. *)
Theorem Fetch_then_served f ctx (t : Token) :
  outcome (Fetcher_Fetch ctx f) = Returns (t, None) ->
  AccessToken t <> EmptyString ->
  forall g ctx',
    token g = token (after (Fetcher_Fetch ctx f)) ->
    Expiry t = time.zero
    \/ time.Before (Expiry t)
         (time.Add (reading g) (tokenExpiryBuffer (config' g))) = false ->
    outcome (Fetcher_Fetch ctx' g) = Returns (t, None)
    /\ adapterCalls (calls (Fetcher_Fetch ctx' g)) = [].
Proof.
  intros Ho Ha g ctx' Hg Hvalid.
  assert (Ht : token g = t).
  { rewrite Hg.
    destruct (refreshRequired_total f) as [Hr|Hr].
    - apply (Fetch_miss_ok f ctx t Hr), (Fetch_miss_nil f ctx t Hr Ho).
    - rewrite (Fetch_hit f ctx Hr) in *.
      rewrite outcome_run in Ho; rewrite after_run.
      destruct (refreshRequired_frame f) as (b & _ & Hk & _).
      congruence. }
  assert (Hr : outcome (Fetcher_refreshRequired g) = Returns false).
  { destruct (refreshRequired_total g) as [Hr|Hr]; [|exact Hr].
    apply refreshRequired_true in Hr; rewrite Ht in Hr.
    destruct Hr as [E|[Hz Hb]]; [contradiction|].
    destruct Hvalid as [E|E]; [contradiction|congruence]. }
  split; [|apply Fetch_hit_calls; exact Hr].
  rewrite (Fetch_hit g ctx' Hr), outcome_run, Ht; reflexivity.
Qed.

(** X6. When the adapter returns a Token with an empty access token and a
    nil error, Fetch returns it and caches it as it is; from any later state
    with that cache, whatever the clock and the configuration, refresh is
    required again and the next Fetch calls the adapter. *)
Theorem Fetch_empty_token_refetches f ctx (t : Token) :
  outcome (Fetcher_refreshRequired f) = Returns true ->
  answerTo f ctx = Returns (t, None) ->
  AccessToken t = EmptyString ->
  outcome (Fetcher_Fetch ctx f) = Returns (t, None)
  /\ forall g ctx',
       token g = token (after (Fetcher_Fetch ctx f)) ->
       outcome (Fetcher_refreshRequired g) = Returns true
       /\ adapterCalls (calls (Fetcher_Fetch ctx' g)) = [ctx'].
Proof.
  intros Hr Ha He.
  destruct (Fetch_miss_ok f ctx t Hr Ha) as [Ho Ht].
  split; [exact Ho|].
  intros g ctx' Hg.
  assert (Hreq : outcome (Fetcher_refreshRequired g) = Returns true).
  { apply refreshRequired_true; left; rewrite Hg, Ht; exact He. }
  split; [exact Hreq|apply Fetch_miss_calls; exact Hreq].
Qed.


(** The cache and the configuration along a lifetime. *)
Lemma reachable_cache (P : Token -> Prop) (f0 f : Fetcher C A) :
  (forall ctx (a : A) (t : Token),
     fst (Adapter_Fetch ctx a) = Returns (t, None) -> P t) ->
  reachable f0 f ->
  config' f = config' f0 /\ (token f = token f0 \/ P (token f)).
Proof.
  intros HP Hreach; induction Hreach as [|f ctx Hreach [IHc IHt]].
  - split; [reflexivity|left; reflexivity].
  - destruct (refreshRequired_frame f) as (b & _ & Ht & Hc & _).
    destruct (refreshRequired_total f) as [Hr|Hr].
    + rewrite (Fetch_miss_run f ctx Hr).
      destruct (answerTo f ctx) as [[t [e|]]|msg] eqn:Ha;
        rewrite after_run; unfold refreshed; cbn [config' token];
        (split; [congruence|]); try exact IHt.
      right; apply (HP ctx (adapter f)); exact Ha.
    + rewrite (Fetch_hit f ctx Hr), after_run.
      split; [congruence|rewrite Ht; exact IHt].
Qed.


End FetchPaths.

(* ===================================================================== *)
(** * The first Fetch of a new fetcher *)
(* ===================================================================== *)

Section NewFetcher.

Context {A : Type} {adp : Adapter A}.

(** A new fetcher requires a refresh, and finds that out without the
    clock. *)
Lemma New_refreshRequired (host : nat -> time.Time) (a : A)
    (opts : list Option) :
  Fetcher_refreshRequired (New host a opts)
  = (Returns true, New host a opts, []).
Proof. rewrite refreshRequired_run; reflexivity. Qed.

(** X8. The first Fetch of a fetcher made by [New], whatever its options,
    calls the adapter exactly once, with the caller's context, and does not
    read the clock.  It returns and caches the adapter's Token when the
    adapter returns a nil error; it returns the zero Token with the
    adapter's error, the cache still empty, when the adapter fails; and it
    panics when the adapter does. *)
Theorem New_first_Fetch (host : nat -> time.Time) (a : A)
    (opts : list Option) (ctx : Context) :
  let r := Fetcher_Fetch ctx (New host a opts) in
  calls r = [AdapterFetch ctx]
  /\ clock (after r) = NewSystem host
  /\ config' (after r) = applyOptions opts defaultConfig
  /\ match fst (Adapter_Fetch ctx a) with
     | Returns (t, None) =>
         outcome r = Returns (t, None) /\ token (after r) = t
     | Returns (_, Some err) =>
         outcome r = Returns (zeroToken, Some err)
         /\ token (after r) = zeroToken
     | Panics msg =>
         outcome r = Panics msg /\ token (after r) = zeroToken
     end.
Proof.
  intros r; subst r.
  assert (Hr : outcome (Fetcher_refreshRequired (New host a opts))
               = Returns true)
    by (rewrite New_refreshRequired; reflexivity).
  rewrite (Fetch_miss_run _ ctx Hr), New_refreshRequired.
  unfold answerTo; cbn [adapter New].
  destruct (fst (Adapter_Fetch ctx a)) as [[t [e|]]|msg];
    rewrite calls_run, outcome_run, !after_run;
    repeat split; reflexivity.
Qed.

End NewFetcher.

(** X15. A fetcher made by [New] over the custom adapter of the README
    returns that adapter's Token with a nil error from every Fetch of its
    lifetime, and calls the adapter for the first of them only: the Token
    has no expiry, so once cached it is served without the adapter and
    without the clock. *)
Theorem custom_lifetime (host : nat -> time.Time) (opts : list Option)
    (f : Fetcher SystemClock custom) (ctx : Context) :
  reachable (New host mkCustom opts) f ->
  outcome (Fetcher_Fetch ctx f) = Returns (customToken, None)
  /\ clockReads (calls (Fetcher_Fetch ctx f)) = 0%nat
  /\ ((token f = zeroToken
       /\ adapterCalls (calls (Fetcher_Fetch ctx f)) = [ctx])
      \/ (token f = customToken
          /\ adapterCalls (calls (Fetcher_Fetch ctx f)) = [])).
Proof.
  intros Hreach.
  destruct (reachable_cache (fun t => t = customToken)
              (New host mkCustom opts) f) as [_ Ht];
    [intros c a t [= <-]; reflexivity|exact Hreach|].
  change (token (New host mkCustom opts)) with zeroToken in Ht.
  assert (Hclock : clockReads (calls (Fetcher_Fetch ctx f)) = 0%nat).
  { destruct (Fetch_clock f ctx) as [-> _].
    destruct (refreshRequired_clock f) as [H0 _].
    destruct H0 as [-> _]; [|reflexivity].
    destruct Ht as [-> | ->]; [left|right]; reflexivity. }
  destruct Ht as [Ht|Ht].
  - assert (Hr : outcome (Fetcher_refreshRequired f) = Returns true)
      by (apply refreshRequired_true; left; rewrite Ht; reflexivity).
    assert (Ha : answerTo f ctx = Returns (customToken, None))
      by reflexivity.
    destruct (Fetch_miss_ok f ctx customToken Hr Ha) as [Ho _].
    split; [exact Ho|]. split; [exact Hclock|].
    left; split; [exact Ht|apply Fetch_miss_calls; exact Hr].
  - assert (Hr : outcome (Fetcher_refreshRequired f) = Returns false).
    { destruct (refreshRequired_total f) as [Hr|Hr]; [|exact Hr].
      apply refreshRequired_true in Hr; rewrite Ht in Hr.
      destruct Hr as [E|[E _]]; [discriminate E|contradiction E].
      reflexivity. }
    split; [rewrite (Fetch_hit f ctx Hr), outcome_run, Ht; reflexivity|].
    split; [exact Hclock|].
    right; split; [exact Ht|apply Fetch_hit_calls; exact Hr].
Qed.

(* ===================================================================== *)
(** * A fetcher over the Secrets Manager adapter *)
(* ===================================================================== *)

Section SecretsManagerFetcher.

Context {K : Type} {sm : awsSecretsManagerClient K} {syn : Syntax}.

Implicit Types (a : awsSecretsManagerAdapter K) (ctx : Context).

(** What the adapter of a fetcher made by [NewAWSSecretsManagerFetcher]
    answers to its first call. *)
Lemma NewAWS_answerTo (host : nat -> time.Time) (smClient : K)
    (smKey : string) (opts : list Option) ctx :
  answerTo (NewAWSSecretsManagerFetcher host smClient smKey opts) ctx
  = fst (awsSecretsManagerAdapter_Fetch ctx
           {| client := smClient; key := smKey |}).
Proof. reflexivity. Qed.

Lemma NewAWS_refreshRequired (host : nat -> time.Time) (smClient : K)
    (smKey : string) (opts : list Option) :
  outcome (Fetcher_refreshRequired
             (NewAWSSecretsManagerFetcher host smClient smKey opts))
  = Returns true.
Proof. apply refreshRequired_true; left; reflexivity. Qed.

(** X9. The first Fetch of a fetcher made by
    [NewAWSSecretsManagerFetcher] hands the adapter's errors to the caller
    as they are: when the store fails, the zero Token and an error that
    unwraps to the store's error, its message the store's after "unable to
    fetch token from secrets manager: "; when the payload does not decode,
    the zero Token and an error that unwraps to the decoding error.  The
    cache stays empty both times. *)
Theorem NewAWS_first_Fetch_errors (host : nat -> time.Time) (smClient : K)
    (smKey : string) (opts : list Option) ctx :
  let a := {| client := smClient; key := smKey |} in
  let r := Fetcher_Fetch ctx
             (NewAWSSecretsManagerFetcher host smClient smKey opts) in
  (forall e, storeFails a ctx e ->
     outcome r
     = Returns (zeroToken,
                Some (wrapError
                        ("unable to fetch token from secrets manager: "
                         ++ Error e)%string e))
     /\ token (after r) = zeroToken)
  /\ (forall e, parseFails a ctx e ->
        outcome r
        = Returns (zeroToken,
                   Some (wrapError
                           ("unable to parse token from secrets manager: "
                            ++ Error e)%string e))
        /\ token (after r) = zeroToken).
Proof.
  intros a r; subst r.
  pose proof (NewAWS_refreshRequired host smClient smKey opts) as Hr.
  pose proof (NewAWS_answerTo host smClient smKey opts ctx) as Ha.
  rewrite awsSecretsManagerAdapter_Fetch_run in Ha; fold a in Ha.
  unfold storeFails, parseFails.
  split.
  - intros e He.
    destruct (storeAnswer a ctx) as [out [e0|]]; cbn [snd] in He;
      [|discriminate He].
    injection He as ->.
    assert (Ha' : answerTo
                    (NewAWSSecretsManagerFetcher host smClient smKey opts)
                    ctx
                  = Returns (zeroToken,
                             Some (Errorf_w
                                     "unable to fetch token from secrets manager: "
                                     e)))
      by (rewrite Ha; destruct out; reflexivity).
    destruct (Fetch_miss_err _ ctx _ _ Hr Ha') as (Ho & Ht & _).
    split; [exact Ho|exact Ht].
  - intros e (o & data & t & Hs & Hd & Hu).
    rewrite Hs, Hd, Hu in Ha.
    destruct (Fetch_miss_err _ ctx _ _ Hr Ha) as (Ho & Ht & _).
    split; [exact Ho|exact Ht].
Qed.

(** X10. When the store answers the first Fetch of such a fetcher with a
    response that carries no secret string, and no error, Fetch panics with
    a nil dereference instead of returning an error. *)
Theorem NewAWS_first_Fetch_nil_secret (host : nat -> time.Time)
    (smClient : K) (smKey : string) (opts : list Option) ctx
    (o : GetSecretValueOutput) :
  storeAnswer {| client := smClient; key := smKey |} ctx = (Some o, None) ->
  SecretString o = None ->
  outcome (Fetcher_Fetch ctx
             (NewAWSSecretsManagerFetcher host smClient smKey opts))
  = Panics nilDereference.
Proof.
  intros Hs Hd.
  pose proof (NewAWS_refreshRequired host smClient smKey opts) as Hr.
  pose proof (NewAWS_answerTo host smClient smKey opts ctx) as Ha.
  rewrite awsSecretsManagerAdapter_Fetch_run, Hs, Hd in Ha.
  rewrite (Fetch_miss_run _ ctx Hr), Ha; reflexivity.
Qed.

(** X11. When the store answers the first Fetch of such a fetcher with a
    secret string that decodes into a zero Token without error, Fetch
    returns the decoded Token with a nil error and caches it, having called
    the adapter once. *)
Theorem NewAWS_first_Fetch_decodes (host : nat -> time.Time) (smClient : K)
    (smKey : string) (opts : list Option) ctx (o : GetSecretValueOutput)
    (data : string) (t : Token) :
  storeAnswer {| client := smClient; key := smKey |} ctx = (Some o, None) ->
  SecretString o = Some data ->
  json_Unmarshal data zeroToken = (t, None) ->
  let r := Fetcher_Fetch ctx
             (NewAWSSecretsManagerFetcher host smClient smKey opts) in
  outcome r = Returns (t, None)
  /\ token (after r) = t
  /\ adapterCalls (calls r) = [ctx].
Proof.
  intros Hs Hd Hu r; subst r.
  pose proof (NewAWS_refreshRequired host smClient smKey opts) as Hr.
  pose proof (NewAWS_answerTo host smClient smKey opts ctx) as Ha.
  rewrite awsSecretsManagerAdapter_Fetch_run, Hs, Hd, Hu in Ha.
  destruct (Fetch_miss_ok _ ctx t Hr Ha) as [Ho Ht].
  split; [exact Ho|]. split; [exact Ht|].
  apply Fetch_miss_calls; exact Hr.
Qed.

(** X13. What the adapter's Fetch returns depends on the store's answer
    through its error and its secret string only: two answers with the same
    error and the same secret string, present or absent, give the same
    result, whatever else the responses carry and whatever key and context
    the requests had. *)
Theorem awsSecretsManagerAdapter_Fetch_reads a1 a2 ctx1 ctx2 :
  snd (storeAnswer a1 ctx1) = snd (storeAnswer a2 ctx2) ->
  option_map SecretString (fst (storeAnswer a1 ctx1))
  = option_map SecretString (fst (storeAnswer a2 ctx2)) ->
  fst (awsSecretsManagerAdapter_Fetch ctx1 a1)
  = fst (awsSecretsManagerAdapter_Fetch ctx2 a2).
Proof.
  intros He Hs.
  rewrite !awsSecretsManagerAdapter_Fetch_run.
  destruct (storeAnswer a1 ctx1) as [o1 e1], (storeAnswer a2 ctx2) as [o2 e2].
  cbn [fst snd] in He, Hs; subst e2.
  destruct e1 as [e|]; [destruct o1, o2; reflexivity|].
  destruct o1 as [o1|], o2 as [o2|]; cbn [option_map] in Hs;
    try discriminate Hs; [|reflexivity].
  injection Hs as ->; reflexivity.
Qed.

(** X14. On every path, the panic included, the adapter's Fetch makes one
    request to the store, for the secret named by its key and with the
    context it was given, and keeps its key. *)
Theorem awsSecretsManagerAdapter_Fetch_request a ctx :
  client (snd (awsSecretsManagerAdapter_Fetch ctx a))
  = snd (GetSecretValue ctx {| SecretId := Some (key a) |} (client a))
  /\ key (snd (awsSecretsManagerAdapter_Fetch ctx a)) = key a.
Proof.
  unfold awsSecretsManagerAdapter_Fetch.
  destruct (GetSecretValue ctx _ (client a)) as [[[o|] [e|]] k];
    try (split; reflexivity).
  cbn [snd]; destruct (SecretString o) as [data|]; [|split; reflexivity].
  destruct (json_Unmarshal data zeroToken) as [t [e|]]; split; reflexivity.
Qed.

End SecretsManagerFetcher.

(* ===================================================================== *)
(** * Further properties at concrete fetchers *)
(* ===================================================================== *)

Section MoreWitnesses.

#[local] Existing Instance textSyntax.

(** After the refresh of an empty cache, the cache holds what was
    returned. *)
Lemma Fetch_returns_cache_witness :
  token (after (Fetcher_Fetch Background
                  (testFetcher defaultConfig [(tok, None)] zeroToken)))
  = tok.
Proof.
  apply (Fetch_returns_cache
           (testFetcher defaultConfig [(tok, None)] zeroToken) Background).
  reflexivity.
Defined.

(** A token without expiry, once fetched, is served by the next Fetch with
    no adapter call. *)
Lemma Fetch_then_served_witness :
  let r := Fetcher_Fetch Background
             (testFetcher defaultConfig [(tok, None)] zeroToken) in
  outcome (Fetcher_Fetch withDeadline (after r)) = Returns (tok, None)
  /\ adapterCalls (calls (Fetcher_Fetch withDeadline (after r))) = [].
Proof.
  intros r.
  apply (Fetch_then_served
           (testFetcher defaultConfig [(tok, None)] zeroToken) Background
           tok).
  - reflexivity.
  - discriminate.
  - reflexivity.
  - left; reflexivity.
Defined.

(** An adapter that hands out the zero Token is asked again by the next
    Fetch. *)
Lemma Fetch_empty_token_refetches_witness :
  let f := testFetcher defaultConfig [(zeroToken, None); (tok, None)]
             zeroToken in
  outcome (Fetcher_Fetch Background f) = Returns (zeroToken, None)
  /\ adapterCalls
       (calls (Fetcher_Fetch withDeadline (after (Fetcher_Fetch Background f))))
     = [withDeadline].
Proof.
  intros f.
  destruct (Fetch_empty_token_refetches f Background zeroToken)
    as [Ho Hnext]; try reflexivity.
  split; [exact Ho|].
  apply (Hnext (after (Fetcher_Fetch Background f)) withDeadline).
  reflexivity.
Defined.



(** The second Fetch over the custom adapter is served from the cache. *)
Lemma custom_lifetime_witness :
  let f1 := after (Fetcher_Fetch Background (New stillHost mkCustom [])) in
  outcome (Fetcher_Fetch withDeadline f1) = Returns (customToken, None)
  /\ clockReads (calls (Fetcher_Fetch withDeadline f1)) = 0%nat.
Proof.
  intros f1.
  destruct (custom_lifetime stillHost [] f1 withDeadline) as (Ho & Hc & _).
  - apply reachable_Fetch, reachable_start.
  - split; [exact Ho|exact Hc].
Defined.

(** The first Fetch against a store that fails. *)
Lemma NewAWS_first_Fetch_errors_witness :
  outcome (Fetcher_Fetch Background
             (NewAWSSecretsManagerFetcher stillHost
                (testClient (None, Some (errorString "secrets manager error")))
                "secret-key" []))
  = Returns (zeroToken,
             Some (wrapError
                     ("unable to fetch token from secrets manager: "
                      ++ "secrets manager error")%string
                     (errorString "secrets manager error"))).
Proof.
  destruct (NewAWS_first_Fetch_errors stillHost
              (testClient (None, Some (errorString "secrets manager error")))
              "secret-key" [] Background) as [Hstore _].
  destruct (Hstore (errorString "secrets manager error") eq_refl) as [Ho _].
  exact Ho.
Defined.

(** The first Fetch against a secret stored as bytes. *)
Lemma NewAWS_first_Fetch_nil_secret_witness :
  outcome (Fetcher_Fetch Background
             (NewAWSSecretsManagerFetcher stillHost
                (testClient (binarySecret, None)) "secret-key" []))
  = Panics nilDereference.
Proof.
  apply (NewAWS_first_Fetch_nil_secret stillHost
           (testClient (binarySecret, None)) "secret-key" [] Background
           {| SecretBinary := Some "bytes"; SecretString := None |});
    reflexivity.
Defined.

(** The first Fetch against the valid secret of the adapter's test. *)
Lemma NewAWS_first_Fetch_decodes_witness :
  let r := Fetcher_Fetch Background
             (NewAWSSecretsManagerFetcher stillHost
                (testClient (secretString validSecret, None))
                "secret-key" []) in
  outcome r = Returns (fullToken, None) /\ token (after r) = fullToken.
Proof.
  intros r.
  destruct (NewAWS_first_Fetch_decodes stillHost
              (testClient (secretString validSecret, None)) "secret-key" []
              Background
              {| SecretBinary := None; SecretString := Some validSecret |}
              validSecret fullToken) as (Ho & Ht & _).
  - reflexivity.
  - reflexivity.
  - vm_compute; reflexivity.
  - split; [exact Ho|exact Ht].
Defined.

(** A response that carries bytes beside the secret string gives what the
    response without them gives. *)
Lemma awsSecretsManagerAdapter_Fetch_reads_witness :
  fst (awsSecretsManagerAdapter_Fetch Background
         (testAdapter
            (Some {| SecretBinary := Some "bytes";
                     SecretString := Some validSecret |}, None)))
  = fst (awsSecretsManagerAdapter_Fetch withDeadline
           (testAdapter (secretString validSecret, None))).
Proof.
  apply awsSecretsManagerAdapter_Fetch_reads; reflexivity.
Defined.

End MoreWitnesses.
